(** * media-organizer: the catalog schema, the configuration loader, the
    logging facade and the command-line entry point

    A shallow embedding of [src/utils/database.py], [src/utils/config.py],
    [src/utils/logger.py] and [main.py].

    Conventions of the embedding.
    - A Python value read from YAML or kept in a JSON column is a [pyval].
    - A Python [float] (and an SQLite REAL) is a binary64 [float].
    - A raised exception is a value of [exn]; code that can raise and that
      changes state runs in the monad [M S], which threads the state [S] and
      keeps the state reached when the exception was raised.
    - A [datetime] is the integer reading of the clock.
    - A path is identified with its text (pathlib's normalisation of the
      text and the directory tree above a path are not modelled). *)

From Stdlib Require Import ZArith Floats.PrimFloat.
From stdpp Require Import base option list gmap strings pretty.

Local Open Scope string_scope.
Local Open Scope Z_scope.
Set Warnings "-register-all,-inexact-float".

(** ** Python values *)

Inductive pyval : Type :=
| PNone
| PBool (b : bool)
| PInt (n : Z)
| PFloat (f : float)
| PStr (s : string)
| PList (l : list pyval)
| PDict (d : list (string * pyval)).

(** ** Exceptions

    Only the classes the program raises or tells apart.  [ValidationError]
    is pydantic's, a subclass of [ValueError]; [FileNotFoundError] and
    [FileExistsError] and [IsADirectoryError] are subclasses of [OSError];
    the database errors are SQLAlchemy's.  The text of an exception that a
    library raises is indicative; the texts the program itself formats are
    exact.  An integrity error records which kind of constraint
    failed. *)

Inductive constraint_kind := NotNullFailed | UniqueFailed.

(** One entry of a pydantic validation report: the dotted location of the
    field and the message. *)
Record error_detail := ErrorDetail { loc : string; msg : string }.

Inductive exn : Type :=
| FileNotFoundError (m : string)
| FileExistsError (m : string)
| IsADirectoryError (m : string)
| ValueError (m : string)
| ValidationError (title : string) (errors : list error_detail)
| TypeError (m : string)
| KeyError (m : string)
| AttributeError (m : string)
| RuntimeError (m : string)
| YAMLError (m : string)
| OperationalError (m : string)
| DatabaseError (m : string)
| IntegrityError (k : constraint_kind)
| UnmappedInstanceError (m : string).

(** ** The state and exception monad *)

Definition M (S A : Type) : Type := S -> (exn + A) * S.

Definition ret {S A} (a : A) : M S A := fun s => (inr a, s).
Definition raise {S A} (e : exn) : M S A := fun s => (inl e, s).
Definition bind {S A B} (m : M S A) (k : A -> M S B) : M S B :=
  fun s => match m s with
           | (inl e, s') => (inl e, s')
           | (inr a, s') => k a s'
           end.
Definition gets {S A} (f : S -> A) : M S A := fun s => (inr (f s), s).
Definition modify {S} (f : S -> S) : M S unit := fun s => (inr tt, f s).
(** A pure computation that may raise. *)
Definition lift {S A} (r : exn + A) : M S A := fun s => (r, s).

(** [try: m except Exception as e: h e]. *)
Definition catch {S A} (m : M S A) (h : exn -> M S A) : M S A :=
  fun s => match m s with
           | (inl e, s') => h e s'
           | (inr a, s') => (inr a, s')
           end.

Notation "'do' x <- m ; k" := (bind m (fun x => k))
  (at level 10, x name, m at level 100, k at level 200).
Notation "'run' m ; k" := (bind m (fun _ => k))
  (at level 10, m at level 100, k at level 200).

(** ** src/utils/database.py: the schema

    The module declares the mapped classes and the manager that creates the
    tables; it has no function that writes or reads a row.  The row
    operations further down are those of an ORM session, which is what
    [DatabaseManager.get_session] hands out, on the columns and
    relationships as they are declared here. *)

Inductive ProcessingStatus :=
| PENDING | FINGERPRINTING | METADATA_LOOKUP | ML_SCORING | REVIEW_NEEDED
| ORGANIZING | COMPLETED | FAILED | SKIPPED.

Inductive MediaType := AUDIO | VIDEO | UNKNOWN.

(** [ReviewStatus.PENDING] is written [REVIEW_PENDING], the name [PENDING]
    being the one of [ProcessingStatus]. *)
Inductive ReviewStatus :=
| REVIEW_PENDING | APPROVED | REJECTED | CORRECTED.

#[export] Instance ProcessingStatus_eq_dec : EqDecision ProcessingStatus.
Proof. solve_decision. Defined.
#[export] Instance MediaType_eq_dec : EqDecision MediaType.
Proof. solve_decision. Defined.
#[export] Instance ReviewStatus_eq_dec : EqDecision ReviewStatus.
Proof. solve_decision. Defined.

(** The [value] of a status, as the enum declares it. *)
Definition ProcessingStatus_value (s : ProcessingStatus) : string :=
  match s with
  | PENDING => "pending" | FINGERPRINTING => "fingerprinting"
  | METADATA_LOOKUP => "metadata_lookup" | ML_SCORING => "ml_scoring"
  | REVIEW_NEEDED => "review_needed" | ORGANIZING => "organizing"
  | COMPLETED => "completed" | FAILED => "failed" | SKIPPED => "skipped"
  end.

(** *** Rows

    One record per mapped class, one field per [Column], in the order of
    the source.  A column that is not declared [nullable=False] (and is not
    the primary key) can hold NULL, so its field is an [option]; this
    includes the columns that have a [default]. *)

Module MediaFile.
Record row := Row {
  id : Z;
  original_path : string;
  filename : string;
  file_size : Z;
  file_hash : string;
  media_type : MediaType;
  status : option ProcessingStatus;
  confidence_score : option float;
  created_at : option Z;
  updated_at : option Z;
  processed_at : option Z;
  output_path : option string;
  usb_device_id : option string;
  is_on_usb : option bool;
  error_message : option string;
  retry_count : option Z
}.
End MediaFile.

Module Fingerprint.
Record row := Row {
  id : Z;
  media_file_id : option Z;
  chromaprint_fingerprint : option string;
  chromaprint_duration : option float;
  acoustid_id : option string;
  acoustid_score : option float;
  video_hash : option string;
  scene_hashes : option pyval;
  duration : option float;
  bitrate : option Z;
  sample_rate : option Z;
  channels : option Z;
  codec : option string;
  created_at : option Z
}.
End Fingerprint.

Module MediaMetadata.
Record row := Row {
  id : Z;
  media_file_id : option Z;
  title : option string;
  artist : option string;
  album : option string;
  year : option Z;
  genre : option string;
  musicbrainz_id : option string;
  musicbrainz_artist_id : option string;
  musicbrainz_album_id : option string;
  track_number : option Z;
  disc_number : option Z;
  tmdb_id : option Z;
  imdb_id : option string;
  season : option Z;
  episode : option Z;
  description : option string;
  language : option string;
  country : option string;
  is_italian : option bool;
  italian_confidence : option float;
  artwork_url : option string;
  artwork_local_path : option string;
  metadata_source : option string;
  metadata_quality : option float;
  created_at : option Z;
  updated_at : option Z
}.
End MediaMetadata.

Module MLFeatures.
Record row := Row {
  id : Z;
  media_file_id : option Z;
  mfcc : option pyval;
  spectral_centroid : option pyval;
  spectral_rolloff : option pyval;
  spectral_contrast : option pyval;
  zero_crossing_rate : option pyval;
  tempo : option float;
  chroma : option pyval;
  feature_vector : option pyval;
  italian_language_features : option pyval;
  created_at : option Z
}.
End MLFeatures.

Module MLModel.
Record row := Row {
  id : Z;
  model_name : string;
  model_version : string;
  model_type : string;
  model_path : string;
  accuracy : option float;
  precision : option float;
  recall : option float;
  f1_score : option float;
  training_samples : option Z;
  features_used : option pyval;
  hyperparameters : option pyval;
  is_active : option bool;
  created_at : option Z;
  trained_at : option Z
}.
End MLModel.

Module ReviewQueue.
Record row := Row {
  id : Z;
  media_file_id : option Z;
  review_status : option ReviewStatus;
  confidence_score : float;
  reason : option string;
  suggested_metadata : option pyval;
  corrected_metadata : option pyval;
  reviewer_notes : option string;
  created_at : option Z;
  reviewed_at : option Z
}.
End ReviewQueue.

Module MLFeedback.
Record row := Row {
  id : Z;
  media_file_id : option Z;
  predicted_metadata : pyval;
  predicted_confidence : float;
  correct_metadata : pyval;
  feedback_type : string;
  used_for_training : option bool;
  training_weight : option float;
  created_at : option Z
}.
End MLFeedback.

Module ProcessingLog.
Record row := Row {
  id : Z;
  media_file_id : option Z;
  level : string;
  module : string;
  message : string;
  context : option pyval;
  exception_type : option string;
  exception_message : option string;
  stack_trace : option string;
  created_at : option Z
}.
End ProcessingLog.


(** *** A database file

    [Base.metadata] holds the eight mapped tables.  In a database file each
    of them either does not exist yet ([None]) or exists with its rows. *)

Record database_file := Tables {
  media_files : option (list MediaFile.row);
  fingerprints : option (list Fingerprint.row);
  media_metadata : option (list MediaMetadata.row);
  ml_features : option (list MLFeatures.row);
  ml_models : option (list MLModel.row);
  review_queue : option (list ReviewQueue.row);
  ml_feedback : option (list MLFeedback.row);
  processing_logs : option (list ProcessingLog.row)
}.

(** A file in which no table has been created. *)
Definition empty_database : database_file :=
  Tables None None None None None None None None.



(** CREATE TABLE guarded by the existence check [create_all] makes
    ([checkfirst=True], its default): an existing table is left as it is. *)
Definition create_if_missing {A} (t : option (list A)) : option (list A) :=
  match t with
  | Some rows => Some rows
  | None => Some []
  end.

(** [Base.metadata.create_all(engine)] on an opened file. *)
Definition create_all (db : database_file) : database_file :=
  {| media_files := create_if_missing (media_files db);
     fingerprints := create_if_missing (fingerprints db);
     media_metadata := create_if_missing (media_metadata db);
     ml_features := create_if_missing (ml_features db);
     ml_models := create_if_missing (ml_models db);
     review_queue := create_if_missing (review_queue db);
     ml_feedback := create_if_missing (ml_feedback db);
     processing_logs := create_if_missing (processing_logs db) |}.


Definition set_media_files (rows : list MediaFile.row) (db : database_file)
  : database_file :=
  {| media_files := Some rows;
     fingerprints := fingerprints db;
     media_metadata := media_metadata db;
     ml_features := ml_features db;
     ml_models := ml_models db;
     review_queue := review_queue db;
     ml_feedback := ml_feedback db;
     processing_logs := processing_logs db |}.

Definition set_media_metadata (rows : list MediaMetadata.row)
    (db : database_file) : database_file :=
  {| media_files := media_files db;
     fingerprints := fingerprints db;
     media_metadata := Some rows;
     ml_features := ml_features db;
     ml_models := ml_models db;
     review_queue := review_queue db;
     ml_feedback := ml_feedback db;
     processing_logs := processing_logs db |}.

(** *** What the declared columns make of a written value

    A constructor argument (or an assigned attribute) of a column that has a
    [default]: left unset (for the ORM, [None] counts as unset: the column is
    omitted from the INSERT and the default fires), the explicit SQL NULL
    ([sqlalchemy.null()]), or a value. *)
Inductive arg (T : Type) : Type :=
| Unset
| SqlNull
| Val (v : T).
Arguments Unset {T}.
Arguments SqlNull {T}.
Arguments Val {T} v.

Definition with_default {T} (a : arg T) (d : T) : option T :=
  match a with
  | Unset => Some d
  | SqlNull => None
  | Val v => Some v
  end.

(** The value a [Float] column holds after a float is bound to it: SQLite
    stores NaN as NULL, and a REAL column gives an integral value back as
    that number, so that a negative zero comes back as zero. *)
Definition sqlite_real (v : float) : option float :=
  if PrimFloat.is_nan v then None
  else if PrimFloat.is_zero v then Some zero
  else Some v.

Definition float_arg (a : arg float) (d : float) : option float :=
  match a with
  | Unset => sqlite_real d
  | SqlNull => None
  | Val v => sqlite_real v
  end.

Fixpoint max_list (l : list Z) : option Z :=
  match l with
  | [] => None
  | x :: l' => match max_list l' with
               | None => Some x
               | Some m => Some (Z.max x m)
               end
  end.

(** The key SQLite gives a row inserted without one into a table whose
    [INTEGER PRIMARY KEY] column holds [ids]: one more than the largest key,
    1 in an empty table. *)
Definition next_id (ids : list Z) : Z :=
  match max_list ids with
  | None => 1
  | Some m => m + 1
  end.

Definition no_such_table (name : string) : exn :=
  OperationalError ("no such table: " +:+ name).

(** *** MediaFile: insert, read, update, delete

    The operations are those of an ORM session on the mapped class, each
    followed by [commit()]: a failed statement rolls back, which leaves the
    file as it was. *)

Module MediaFile_kwargs.
Record t := Make {
  id : option Z;
  original_path : option string;
  filename : option string;
  file_size : option Z;
  file_hash : option string;
  media_type : option MediaType;
  status : arg ProcessingStatus;
  confidence_score : arg float;
  created_at : arg Z;
  updated_at : arg Z;
  processed_at : option Z;
  output_path : option string;
  usb_device_id : option string;
  is_on_usb : arg bool;
  error_message : option string;
  retry_count : arg Z
}.
End MediaFile_kwargs.

(** The row an INSERT builds from the arguments, once the NOT NULL columns
    are known to be given and the key [i] is chosen; [now] is
    [datetime.utcnow()]. *)
Definition MediaFile_new_row (now i : Z) (p fn : string) (sz : Z) (h : string)
    (mt : MediaType) (a : MediaFile_kwargs.t) : MediaFile.row :=
  {| MediaFile.id := i;
     MediaFile.original_path := p;
     MediaFile.filename := fn;
     MediaFile.file_size := sz;
     MediaFile.file_hash := h;
     MediaFile.media_type := mt;
     MediaFile.status := with_default (MediaFile_kwargs.status a) PENDING;
     MediaFile.confidence_score :=
       float_arg (MediaFile_kwargs.confidence_score a) 0%float;
     MediaFile.created_at := with_default (MediaFile_kwargs.created_at a) now;
     MediaFile.updated_at := with_default (MediaFile_kwargs.updated_at a) now;
     MediaFile.processed_at := MediaFile_kwargs.processed_at a;
     MediaFile.output_path := MediaFile_kwargs.output_path a;
     MediaFile.usb_device_id := MediaFile_kwargs.usb_device_id a;
     MediaFile.is_on_usb := with_default (MediaFile_kwargs.is_on_usb a) false;
     MediaFile.error_message := MediaFile_kwargs.error_message a;
     MediaFile.retry_count := with_default (MediaFile_kwargs.retry_count a) 0 |}.

(** [session.add(MediaFile(...)); session.commit()] with the keyword
    arguments [a], giving the key of the new row.  SQLite checks NOT NULL
    first, then the primary key and the UNIQUE columns ([original_path],
    [file_hash]). *)
Definition add_MediaFile (now : Z) (a : MediaFile_kwargs.t)
  : M database_file Z := fun db =>
  match media_files db with
  | None => (inl (no_such_table "media_files"), db)
  | Some rows =>
    match MediaFile_kwargs.original_path a, MediaFile_kwargs.filename a,
          MediaFile_kwargs.file_size a, MediaFile_kwargs.file_hash a,
          MediaFile_kwargs.media_type a with
    | Some p, Some fn, Some sz, Some h, Some mt =>
      let i := default (next_id (MediaFile.id <$> rows)) (MediaFile_kwargs.id a) in
      if bool_decide (i ∈ MediaFile.id <$> rows)
         || bool_decide (p ∈ MediaFile.original_path <$> rows)
         || bool_decide (h ∈ MediaFile.file_hash <$> rows)
      then (inl (IntegrityError UniqueFailed), db)
      else (inr i, set_media_files (rows ++ [MediaFile_new_row now i p fn sz h mt a]) db)
    | _, _, _, _, _ => (inl (IntegrityError NotNullFailed), db)
    end
  end.

(** [session.get(MediaFile, i)]. *)
Definition get_MediaFile (i : Z) : M database_file (option MediaFile.row) :=
  fun db =>
  match media_files db with
  | None => (inl (no_such_table "media_files"), db)
  | Some rows => (inr (find (fun r => bool_decide (MediaFile.id r = i)) rows), db)
  end.


(** The UPDATE the unit of work emits for one changed row: [f] on the row
    with key [i]. *)
Definition update_row (i : Z) (f : MediaFile.row -> MediaFile.row)
    (rows : list MediaFile.row) : list MediaFile.row :=
  (fun r => if bool_decide (MediaFile.id r = i) then f r else r) <$> rows.

Definition with_status (s : ProcessingStatus) (now : Z) (r : MediaFile.row)
  : MediaFile.row :=
  {| MediaFile.id := MediaFile.id r;
     MediaFile.original_path := MediaFile.original_path r;
     MediaFile.filename := MediaFile.filename r;
     MediaFile.file_size := MediaFile.file_size r;
     MediaFile.file_hash := MediaFile.file_hash r;
     MediaFile.media_type := MediaFile.media_type r;
     MediaFile.status := Some s;
     MediaFile.confidence_score := MediaFile.confidence_score r;
     MediaFile.created_at := MediaFile.created_at r;
     MediaFile.updated_at := Some now;
     MediaFile.processed_at := MediaFile.processed_at r;
     MediaFile.output_path := MediaFile.output_path r;
     MediaFile.usb_device_id := MediaFile.usb_device_id r;
     MediaFile.is_on_usb := MediaFile.is_on_usb r;
     MediaFile.error_message := MediaFile.error_message r;
     MediaFile.retry_count := MediaFile.retry_count r |}.

Definition with_confidence_score (v : float) (now : Z) (r : MediaFile.row)
  : MediaFile.row :=
  {| MediaFile.id := MediaFile.id r;
     MediaFile.original_path := MediaFile.original_path r;
     MediaFile.filename := MediaFile.filename r;
     MediaFile.file_size := MediaFile.file_size r;
     MediaFile.file_hash := MediaFile.file_hash r;
     MediaFile.media_type := MediaFile.media_type r;
     MediaFile.status := MediaFile.status r;
     MediaFile.confidence_score := sqlite_real v;
     MediaFile.created_at := MediaFile.created_at r;
     MediaFile.updated_at := Some now;
     MediaFile.processed_at := MediaFile.processed_at r;
     MediaFile.output_path := MediaFile.output_path r;
     MediaFile.usb_device_id := MediaFile.usb_device_id r;
     MediaFile.is_on_usb := MediaFile.is_on_usb r;
     MediaFile.error_message := MediaFile.error_message r;
     MediaFile.retry_count := MediaFile.retry_count r |}.

Definition none_has_no_attribute (name : string) : exn :=
  AttributeError ("'NoneType' object has no attribute '" +:+ name +:+ "'").

(** [session.get(MediaFile, i).status = s; session.commit()].  The column
    is [SQLEnum(ProcessingStatus)] and nothing else: every member is
    accepted, from every stored status.  An assignment of the value the row
    already has is no change, and the unit of work then emits no UPDATE;
    otherwise [updated_at] takes its [onupdate] value. *)
Definition set_status (now i : Z) (s : ProcessingStatus)
  : M database_file unit := fun db =>
  match media_files db with
  | None => (inl (no_such_table "media_files"), db)
  | Some rows =>
    match find (fun r => bool_decide (MediaFile.id r = i)) rows with
    | None => (inl (none_has_no_attribute "status"), db)
    | Some r =>
      if bool_decide (MediaFile.status r = Some s) then (inr tt, db)
      else (inr tt, set_media_files (update_row i (with_status s now) rows) db)
    end
  end.

(** Python's [==] between the loaded attribute and an assigned float. *)
Definition float_attr_eq (old : option float) (v : float) : bool :=
  match old with
  | Some o => PrimFloat.eqb v o
  | None => false
  end.

(** [session.get(MediaFile, i).confidence_score = v; session.commit()].
    The column is [Float] with a default and nothing else: there is no
    CHECK constraint and no validator. *)
Definition set_confidence_score (now i : Z) (v : float)
  : M database_file unit := fun db =>
  match media_files db with
  | None => (inl (no_such_table "media_files"), db)
  | Some rows =>
    match find (fun r => bool_decide (MediaFile.id r = i)) rows with
    | None => (inl (none_has_no_attribute "confidence_score"), db)
    | Some r =>
      if float_attr_eq (MediaFile.confidence_score r) v then (inr tt, db)
      else (inr tt,
            set_media_files (update_row i (with_confidence_score v now) rows) db)
    end
  end.

(** *** Deleting a MediaFile

    The five relationships of [MediaFile] are declared without [cascade] and
    the foreign keys without [ondelete].  On [session.delete] the unit of
    work therefore loads the related rows and sets their [media_file_id] to
    NULL before it deletes the parent; it deletes none of them.  [MLFeedback]
    has a foreign key but no relationship and is not touched (SQLite does not
    enforce foreign keys unless asked to). *)

(** Whether a foreign key column points at row [i]. *)
Definition refers_to (i : Z) (fk : option Z) : bool := bool_decide (fk = Some i).

Definition orphan_Fingerprint (i : Z) (c : Fingerprint.row) : Fingerprint.row :=
  if refers_to i (Fingerprint.media_file_id c) then
    {| Fingerprint.id := Fingerprint.id c;
       Fingerprint.media_file_id := None;
       Fingerprint.chromaprint_fingerprint := Fingerprint.chromaprint_fingerprint c;
       Fingerprint.chromaprint_duration := Fingerprint.chromaprint_duration c;
       Fingerprint.acoustid_id := Fingerprint.acoustid_id c;
       Fingerprint.acoustid_score := Fingerprint.acoustid_score c;
       Fingerprint.video_hash := Fingerprint.video_hash c;
       Fingerprint.scene_hashes := Fingerprint.scene_hashes c;
       Fingerprint.duration := Fingerprint.duration c;
       Fingerprint.bitrate := Fingerprint.bitrate c;
       Fingerprint.sample_rate := Fingerprint.sample_rate c;
       Fingerprint.channels := Fingerprint.channels c;
       Fingerprint.codec := Fingerprint.codec c;
       Fingerprint.created_at := Fingerprint.created_at c |}
  else c.

(** [MediaMetadata.updated_at] has an [onupdate], which the UPDATE fires. *)
Definition orphan_MediaMetadata (now i : Z) (c : MediaMetadata.row)
  : MediaMetadata.row :=
  if refers_to i (MediaMetadata.media_file_id c) then
    {| MediaMetadata.id := MediaMetadata.id c;
       MediaMetadata.media_file_id := None;
       MediaMetadata.title := MediaMetadata.title c;
       MediaMetadata.artist := MediaMetadata.artist c;
       MediaMetadata.album := MediaMetadata.album c;
       MediaMetadata.year := MediaMetadata.year c;
       MediaMetadata.genre := MediaMetadata.genre c;
       MediaMetadata.musicbrainz_id := MediaMetadata.musicbrainz_id c;
       MediaMetadata.musicbrainz_artist_id := MediaMetadata.musicbrainz_artist_id c;
       MediaMetadata.musicbrainz_album_id := MediaMetadata.musicbrainz_album_id c;
       MediaMetadata.track_number := MediaMetadata.track_number c;
       MediaMetadata.disc_number := MediaMetadata.disc_number c;
       MediaMetadata.tmdb_id := MediaMetadata.tmdb_id c;
       MediaMetadata.imdb_id := MediaMetadata.imdb_id c;
       MediaMetadata.season := MediaMetadata.season c;
       MediaMetadata.episode := MediaMetadata.episode c;
       MediaMetadata.description := MediaMetadata.description c;
       MediaMetadata.language := MediaMetadata.language c;
       MediaMetadata.country := MediaMetadata.country c;
       MediaMetadata.is_italian := MediaMetadata.is_italian c;
       MediaMetadata.italian_confidence := MediaMetadata.italian_confidence c;
       MediaMetadata.artwork_url := MediaMetadata.artwork_url c;
       MediaMetadata.artwork_local_path := MediaMetadata.artwork_local_path c;
       MediaMetadata.metadata_source := MediaMetadata.metadata_source c;
       MediaMetadata.metadata_quality := MediaMetadata.metadata_quality c;
       MediaMetadata.created_at := MediaMetadata.created_at c;
       MediaMetadata.updated_at := Some now |}
  else c.

Definition orphan_MLFeatures (i : Z) (c : MLFeatures.row) : MLFeatures.row :=
  if refers_to i (MLFeatures.media_file_id c) then
    {| MLFeatures.id := MLFeatures.id c;
       MLFeatures.media_file_id := None;
       MLFeatures.mfcc := MLFeatures.mfcc c;
       MLFeatures.spectral_centroid := MLFeatures.spectral_centroid c;
       MLFeatures.spectral_rolloff := MLFeatures.spectral_rolloff c;
       MLFeatures.spectral_contrast := MLFeatures.spectral_contrast c;
       MLFeatures.zero_crossing_rate := MLFeatures.zero_crossing_rate c;
       MLFeatures.tempo := MLFeatures.tempo c;
       MLFeatures.chroma := MLFeatures.chroma c;
       MLFeatures.feature_vector := MLFeatures.feature_vector c;
       MLFeatures.italian_language_features := MLFeatures.italian_language_features c;
       MLFeatures.created_at := MLFeatures.created_at c |}
  else c.

Definition orphan_ReviewQueue (i : Z) (c : ReviewQueue.row) : ReviewQueue.row :=
  if refers_to i (ReviewQueue.media_file_id c) then
    {| ReviewQueue.id := ReviewQueue.id c;
       ReviewQueue.media_file_id := None;
       ReviewQueue.review_status := ReviewQueue.review_status c;
       ReviewQueue.confidence_score := ReviewQueue.confidence_score c;
       ReviewQueue.reason := ReviewQueue.reason c;
       ReviewQueue.suggested_metadata := ReviewQueue.suggested_metadata c;
       ReviewQueue.corrected_metadata := ReviewQueue.corrected_metadata c;
       ReviewQueue.reviewer_notes := ReviewQueue.reviewer_notes c;
       ReviewQueue.created_at := ReviewQueue.created_at c;
       ReviewQueue.reviewed_at := ReviewQueue.reviewed_at c |}
  else c.

Definition orphan_ProcessingLog (i : Z) (c : ProcessingLog.row)
  : ProcessingLog.row :=
  if refers_to i (ProcessingLog.media_file_id c) then
    {| ProcessingLog.id := ProcessingLog.id c;
       ProcessingLog.media_file_id := None;
       ProcessingLog.level := ProcessingLog.level c;
       ProcessingLog.module := ProcessingLog.module c;
       ProcessingLog.message := ProcessingLog.message c;
       ProcessingLog.context := ProcessingLog.context c;
       ProcessingLog.exception_type := ProcessingLog.exception_type c;
       ProcessingLog.exception_message := ProcessingLog.exception_message c;
       ProcessingLog.stack_trace := ProcessingLog.stack_trace c;
       ProcessingLog.created_at := ProcessingLog.created_at c |}
  else c.

(** [session.delete(session.get(MediaFile, i)); session.commit()].
    The UNIQUE constraint on [media_file_id] leaves at most one row to orphan in
    each of the four one-to-one tables. *)
Definition delete_MediaFile (now i : Z) : M database_file unit := fun db =>
  match media_files db, fingerprints db, media_metadata db, ml_features db,
        review_queue db, processing_logs db with
  | Some rows, Some fps, Some mds, Some fts, Some rvs, Some logs =>
    match find (fun r => bool_decide (MediaFile.id r = i)) rows with
    | None => (inl (UnmappedInstanceError "Class 'builtins.NoneType' is not mapped"), db)
    | Some _ =>
      (inr tt,
       {| media_files :=
            Some (filter (fun r => MediaFile.id r <> i) rows);
          fingerprints := Some (orphan_Fingerprint i <$> fps);
          media_metadata := Some (orphan_MediaMetadata now i <$> mds);
          ml_features := Some (orphan_MLFeatures i <$> fts);
          ml_models := ml_models db;
          review_queue := Some (orphan_ReviewQueue i <$> rvs);
          ml_feedback := ml_feedback db;
          processing_logs := Some (orphan_ProcessingLog i <$> logs) |})
    end
  | None, _, _, _, _, _ => (inl (no_such_table "media_files"), db)
  | _, None, _, _, _, _ => (inl (no_such_table "fingerprints"), db)
  | _, _, None, _, _, _ => (inl (no_such_table "media_metadata"), db)
  | _, _, _, None, _, _ => (inl (no_such_table "ml_features"), db)
  | _, _, _, _, None, _ => (inl (no_such_table "review_queue"), db)
  | _, _, _, _, _, None => (inl (no_such_table "processing_logs"), db)
  end.

(** *** MediaMetadata: insert and read *)

Module MediaMetadata_kwargs.
Record t := Make {
  id : option Z;
  media_file_id : option Z;
  title : option string;
  artist : option string;
  album : option string;
  year : option Z;
  genre : option string;
  musicbrainz_id : option string;
  musicbrainz_artist_id : option string;
  musicbrainz_album_id : option string;
  track_number : option Z;
  disc_number : option Z;
  tmdb_id : option Z;
  imdb_id : option string;
  season : option Z;
  episode : option Z;
  description : option string;
  language : option string;
  country : option string;
  is_italian : arg bool;
  italian_confidence : arg float;
  artwork_url : option string;
  artwork_local_path : option string;
  metadata_source : option string;
  metadata_quality : arg float;
  created_at : arg Z;
  updated_at : arg Z
}.
End MediaMetadata_kwargs.

Definition MediaMetadata_new_row (now i : Z) (a : MediaMetadata_kwargs.t)
  : MediaMetadata.row :=
  {| MediaMetadata.id := i;
     MediaMetadata.media_file_id := MediaMetadata_kwargs.media_file_id a;
     MediaMetadata.title := MediaMetadata_kwargs.title a;
     MediaMetadata.artist := MediaMetadata_kwargs.artist a;
     MediaMetadata.album := MediaMetadata_kwargs.album a;
     MediaMetadata.year := MediaMetadata_kwargs.year a;
     MediaMetadata.genre := MediaMetadata_kwargs.genre a;
     MediaMetadata.musicbrainz_id := MediaMetadata_kwargs.musicbrainz_id a;
     MediaMetadata.musicbrainz_artist_id := MediaMetadata_kwargs.musicbrainz_artist_id a;
     MediaMetadata.musicbrainz_album_id := MediaMetadata_kwargs.musicbrainz_album_id a;
     MediaMetadata.track_number := MediaMetadata_kwargs.track_number a;
     MediaMetadata.disc_number := MediaMetadata_kwargs.disc_number a;
     MediaMetadata.tmdb_id := MediaMetadata_kwargs.tmdb_id a;
     MediaMetadata.imdb_id := MediaMetadata_kwargs.imdb_id a;
     MediaMetadata.season := MediaMetadata_kwargs.season a;
     MediaMetadata.episode := MediaMetadata_kwargs.episode a;
     MediaMetadata.description := MediaMetadata_kwargs.description a;
     MediaMetadata.language := MediaMetadata_kwargs.language a;
     MediaMetadata.country := MediaMetadata_kwargs.country a;
     MediaMetadata.is_italian :=
       with_default (MediaMetadata_kwargs.is_italian a) false;
     MediaMetadata.italian_confidence :=
       float_arg (MediaMetadata_kwargs.italian_confidence a) 0%float;
     MediaMetadata.artwork_url := MediaMetadata_kwargs.artwork_url a;
     MediaMetadata.artwork_local_path := MediaMetadata_kwargs.artwork_local_path a;
     MediaMetadata.metadata_source := MediaMetadata_kwargs.metadata_source a;
     MediaMetadata.metadata_quality :=
       float_arg (MediaMetadata_kwargs.metadata_quality a) 0%float;
     MediaMetadata.created_at := with_default (MediaMetadata_kwargs.created_at a) now;
     MediaMetadata.updated_at := with_default (MediaMetadata_kwargs.updated_at a) now |}.

(** Whether a UNIQUE nullable column already holds the value: NULLs never
    collide. *)
Definition taken (v : option Z) (held : list (option Z)) : bool :=
  match v with
  | Some _ => bool_decide (v ∈ held)
  | None => false
  end.

(** [session.add(MediaMetadata(...)); session.commit()] with the keyword
    arguments [a].  No column of the table is NOT NULL; the primary key and
    [media_file_id] are unique; the foreign key is not enforced. *)
Definition add_MediaMetadata (now : Z) (a : MediaMetadata_kwargs.t)
  : M database_file Z := fun db =>
  match media_metadata db with
  | None => (inl (no_such_table "media_metadata"), db)
  | Some rows =>
    let i := default (next_id (MediaMetadata.id <$> rows))
                     (MediaMetadata_kwargs.id a) in
    if bool_decide (i ∈ MediaMetadata.id <$> rows)
       || taken (MediaMetadata_kwargs.media_file_id a)
                (MediaMetadata.media_file_id <$> rows)
    then (inl (IntegrityError UniqueFailed), db)
    else (inr i, set_media_metadata (rows ++ [MediaMetadata_new_row now i a]) db)
  end.

(** [session.get(MediaMetadata, i)]. *)
Definition get_MediaMetadata (i : Z)
  : M database_file (option MediaMetadata.row) := fun db =>
  match media_metadata db with
  | None => (inl (no_such_table "media_metadata"), db)
  | Some rows =>
    (inr (find (fun r => bool_decide (MediaMetadata.id r = i)) rows), db)
  end.

(** ** Python's operators on the values read from YAML *)

(** [bool(v)]. *)
Definition truthy (v : pyval) : bool :=
  match v with
  | PNone => false
  | PBool b => b
  | PInt n => negb (n =? 0)
  | PFloat f => negb (PrimFloat.is_zero f)
  | PStr s => negb (String.eqb s "")
  | PList l => match l with [] => false | _ => true end
  | PDict d => match d with [] => false | _ => true end
  end.

(** [type(v).__name__]. *)
Definition type_name (v : pyval) : string :=
  match v with
  | PNone => "NoneType"
  | PBool _ => "bool"
  | PInt _ => "int"
  | PFloat _ => "float"
  | PStr _ => "str"
  | PList _ => "list"
  | PDict _ => "dict"
  end.

(** [d.get(k)] on the items of a dict. *)
Fixpoint assoc (k : string) (d : list (string * pyval)) : option pyval :=
  match d with
  | [] => None
  | (k', v) :: d' => if String.eqb k' k then Some v else assoc k d'
  end.

(** [d[k] = v] on the items of a dict: an existing key keeps its place. *)
Fixpoint assoc_set (k : string) (v : pyval) (d : list (string * pyval))
  : list (string * pyval) :=
  match d with
  | [] => [(k, v)]
  | (k', v') :: d' =>
    if String.eqb k' k then (k, v) :: d' else (k', v') :: assoc_set k v d'
  end.

(** [sub in s] between strings. *)
Fixpoint str_contains (sub s : string) : bool :=
  String.prefix sub s ||
  match s with
  | EmptyString => false
  | String _ s' => str_contains sub s'
  end.

Definition is_str (k : string) (v : pyval) : bool :=
  match v with
  | PStr s => String.eqb s k
  | _ => false
  end.

(** [k in v] for a string [k]. *)
Definition py_contains (k : string) (v : pyval) : exn + bool :=
  match v with
  | PDict d => inr (bool_decide (is_Some (assoc k d)))
  | PList l => inr (existsb (is_str k) l)
  | PStr s => inr (str_contains k s)
  | _ => inl (TypeError ("argument of type '" +:+ type_name v +:+ "' is not iterable"))
  end.

(** [v[k]] for a string [k]. *)
Definition py_getitem (v : pyval) (k : string) : exn + pyval :=
  match v with
  | PDict d =>
    match assoc k d with
    | Some x => inr x
    | None => inl (KeyError ("'" +:+ k +:+ "'"))
    end
  | PList _ | PStr _ =>
    inl (TypeError (type_name v +:+ " indices must be integers"))
  | _ => inl (TypeError ("'" +:+ type_name v +:+ "' object is not subscriptable"))
  end.

(** [v[k] = x] for a string [k], giving the value [v] has afterwards. *)
Definition py_setitem (v : pyval) (k : string) (x : pyval) : exn + pyval :=
  match v with
  | PDict d => inr (PDict (assoc_set k x d))
  | _ => inl (TypeError ("'" +:+ type_name v +:+
                         "' object does not support item assignment"))
  end.

(** ** src/utils/config.py: the configuration model *)

Module AppConfig.
Record t := Make {
  name : string;
  version : string;
  log_level : string
}.
Definition default : t := Make "Media Organizer" "1.0.0" "INFO".
End AppConfig.

Module PathsConfig.
Record t := Make {
  input_folder : string;
  output_folder : string;
  cache_folder : string;
  models_folder : string;
  queue_folder : string;
  log_folder : string;
  database : string
}.
End PathsConfig.

Module AudioFingerprintConfig.
Record t := Make {
  enabled : bool;
  use_chromaprint : bool;
  use_acoustid : bool;
  extract_features : bool
}.
Definition default : t := Make true true true true.
End AudioFingerprintConfig.

Module VideoFingerprintConfig.
Record t := Make {
  enabled : bool;
  extract_scenes : bool;
  thumbnail_count : Z
}.
Definition default : t := Make true true 3.
End VideoFingerprintConfig.

Module FingerprintingConfig.
Record t := Make {
  audio : AudioFingerprintConfig.t;
  video : VideoFingerprintConfig.t
}.
Definition default : t :=
  Make AudioFingerprintConfig.default VideoFingerprintConfig.default.
End FingerprintingConfig.

Module MusicBrainzConfig.
Record t := Make {
  enabled : bool;
  rate_limit : float
}.
Definition default : t := Make true 1%float.
End MusicBrainzConfig.

Module TMDBConfig.
Record t := Make {
  enabled : bool;
  api_key : string
}.
Definition default : t := Make true "".
End TMDBConfig.

Module MetadataConfig.
Record t := Make {
  musicbrainz : MusicBrainzConfig.t;
  tmdb : TMDBConfig.t
}.
Definition default : t := Make MusicBrainzConfig.default TMDBConfig.default.
End MetadataConfig.

Module MLConfig.
Record t := Make {
  enabled : bool;
  confidence_threshold : float;
  retrain_interval : Z;
  italian_music_boost : float
}.
Definition default : t := Make true 0.75%float 100 1.2%float.
End MLConfig.

Module ReviewConfig.
Record t := Make {
  enabled : bool;
  confidence_threshold : float;
  auto_approve_above : float
}.
Definition default : t := Make true 0.75%float 0.95%float.
End ReviewConfig.

Module USBConfig.
Record t := Make {
  enabled : bool;
  auto_detect : bool;
  cache_enabled : bool;
  resume_on_reconnect : bool
}.
Definition default : t := Make true true true true.
End USBConfig.

Module BackupConfig.
Record t := Make {
  auto_commit : bool;
  commit_interval : Z;
  auto_push : bool;
  push_interval : Z
}.
Definition default : t := Make true 10 true 50.
End BackupConfig.

Module Config.
Record t := Make {
  app : AppConfig.t;
  paths : PathsConfig.t;
  fingerprinting : FingerprintingConfig.t;
  metadata : MetadataConfig.t;
  ml : MLConfig.t;
  review : ReviewConfig.t;
  usb : USBConfig.t;
  backup : BackupConfig.t
}.
End Config.

(** *** Validation

    [Config] applied to the unpacked dict validates it against the declared fields:
    a missing field takes its default (or is reported when it has none), a
    present one is validated against its type and constraints, unknown keys
    are ignored, and the errors of all the fields are collected into one
    [ValidationError]. *)

(** The outcome of validating one field or one model. *)
Definition V (A : Type) : Type := list error_detail + A.

Definition vap {A B} (f : V (A -> B)) (x : V A) : V B :=
  match f, x with
  | inr g, inr a => inr (g a)
  | inr _, inl e => inl e
  | inl e, inr _ => inl e
  | inl e1, inl e2 => inl (app e1 e2)
  end.
Infix "<*>" := vap (at level 51, left associativity).

Definition fail {A} (l m : string) : V A := inl [ErrorDetail l m].

(** pydantic's conversion of an input to [bool], [int] and [float] in its
    default (lax) mode, giving the value or the message of the error.  The
    conversion tables are pydantic's own; the loader is stated for any. *)
Class Pydantic := {
  lax_bool : pyval -> string + bool;
  lax_int : pyval -> string + Z;
  lax_float : pyval -> string + float
}.

Section Validation.
Context `{Pydantic}.

Definition v_str (l : string) (v : pyval) : V string :=
  match v with
  | PStr s => inr s
  | _ => fail l "Input should be a valid string"
  end.

Definition v_bool (l : string) (v : pyval) : V bool :=
  match lax_bool v with
  | inr b => inr b
  | inl m => fail l m
  end.

(** [Field(ge=lo)] and [Field(ge=lo, le=hi)] on an [int]. *)
Definition v_int (lo : Z) (hi : option Z) (l : string) (v : pyval) : V Z :=
  match lax_int v with
  | inl m => fail l m
  | inr n =>
    if n <? lo then fail l "Input should be greater than or equal to the bound"
    else match hi with
         | Some h =>
           if h <? n then fail l "Input should be less than or equal to the bound"
           else inr n
         | None => inr n
         end
  end.

(** [Field(ge=lo, le=hi)] on a [float]. *)
Definition v_float (lo hi : float) (l : string) (v : pyval) : V float :=
  match lax_float v with
  | inl m => fail l m
  | inr x =>
    if negb (PrimFloat.leb lo x)
    then fail l "Input should be greater than or equal to the bound"
    else if negb (PrimFloat.leb x hi)
    then fail l "Input should be less than or equal to the bound"
    else inr x
  end.

(** [Field(pattern="^(DEBUG|INFO|WARNING|ERROR|CRITICAL)$")]. *)
Definition v_log_level (l : string) (v : pyval) : V string :=
  match v_str l v with
  | inr s =>
    if bool_decide (s ∈ ["DEBUG"; "INFO"; "WARNING"; "ERROR"; "CRITICAL"])
    then inr s
    else fail l "String should match pattern '^(DEBUG|INFO|WARNING|ERROR|CRITICAL)$'"
  | inl e => inl e
  end.

(** [PathsConfig.validate_paths], run on a value that is a string ([not v]
    holds of the empty string only). *)
Definition validate_paths (v : string) : exn + string :=
  if String.eqb v "" || String.eqb v "/path/to/input"
     || String.eqb v "/path/to/output"
  then inl (ValueError ("Path must be configured: " +:+ v))
  else inr v.

Definition v_path (l : string) (v : pyval) : V string :=
  match v_str l v with
  | inr s =>
    match validate_paths s with
    | inr s' => inr s'
    | inl (ValueError m) => fail l ("Value error, " +:+ m)
    | inl _ => fail l "Value error"
    end
  | inl e => inl e
  end.

(** One declared field: [l] is the location of the model, [k] the name of
    the field, [d] its default if it has one. *)
Definition field {A} (l k : string) (d : option A)
    (validate : string -> pyval -> V A) (items : list (string * pyval)) : V A :=
  match assoc k items with
  | Some v => validate (l +:+ k) v
  | None =>
    match d with
    | Some a => inr a
    | None => fail (l +:+ k) "Field required"
    end
  end.

(** A field whose type is a model: the input has to be a dict. *)
Definition v_model {A} (cls : string) (validate : string -> list (string * pyval) -> V A)
    (l : string) (v : pyval) : V A :=
  match v with
  | PDict items => validate (l +:+ ".") items
  | _ => fail l ("Input should be a valid dictionary or instance of " +:+ cls)
  end.

Definition v_AppConfig (l : string) (d : list (string * pyval)) : V AppConfig.t :=
  inr AppConfig.Make
  <*> field l "name" (Some "Media Organizer") v_str d
  <*> field l "version" (Some "1.0.0") v_str d
  <*> field l "log_level" (Some "INFO") v_log_level d.

Definition v_PathsConfig (l : string) (d : list (string * pyval))
  : V PathsConfig.t :=
  inr PathsConfig.Make
  <*> field l "input_folder" None v_path d
  <*> field l "output_folder" None v_path d
  <*> field l "cache_folder" (Some "./data/cache") v_str d
  <*> field l "models_folder" (Some "./data/models") v_str d
  <*> field l "queue_folder" (Some "./data/queue") v_str d
  <*> field l "log_folder" (Some "./logs") v_str d
  <*> field l "database" (Some "./data/media_organizer.db") v_str d.

Definition v_AudioFingerprintConfig (l : string) (d : list (string * pyval))
  : V AudioFingerprintConfig.t :=
  inr AudioFingerprintConfig.Make
  <*> field l "enabled" (Some true) v_bool d
  <*> field l "use_chromaprint" (Some true) v_bool d
  <*> field l "use_acoustid" (Some true) v_bool d
  <*> field l "extract_features" (Some true) v_bool d.

Definition v_VideoFingerprintConfig (l : string) (d : list (string * pyval))
  : V VideoFingerprintConfig.t :=
  inr VideoFingerprintConfig.Make
  <*> field l "enabled" (Some true) v_bool d
  <*> field l "extract_scenes" (Some true) v_bool d
  <*> field l "thumbnail_count" (Some 3) (v_int 1 (Some 10)) d.

Definition v_FingerprintingConfig (l : string) (d : list (string * pyval))
  : V FingerprintingConfig.t :=
  inr FingerprintingConfig.Make
  <*> field l "audio" (Some AudioFingerprintConfig.default)
        (v_model "AudioFingerprintConfig" v_AudioFingerprintConfig) d
  <*> field l "video" (Some VideoFingerprintConfig.default)
        (v_model "VideoFingerprintConfig" v_VideoFingerprintConfig) d.

Definition v_MusicBrainzConfig (l : string) (d : list (string * pyval))
  : V MusicBrainzConfig.t :=
  inr MusicBrainzConfig.Make
  <*> field l "enabled" (Some true) v_bool d
  <*> field l "rate_limit" (Some 1%float) (v_float 0.5 5) d.

Definition v_TMDBConfig (l : string) (d : list (string * pyval))
  : V TMDBConfig.t :=
  inr TMDBConfig.Make
  <*> field l "enabled" (Some true) v_bool d
  <*> field l "api_key" (Some "") v_str d.

Definition v_MetadataConfig (l : string) (d : list (string * pyval))
  : V MetadataConfig.t :=
  inr MetadataConfig.Make
  <*> field l "musicbrainz" (Some MusicBrainzConfig.default)
        (v_model "MusicBrainzConfig" v_MusicBrainzConfig) d
  <*> field l "tmdb" (Some TMDBConfig.default)
        (v_model "TMDBConfig" v_TMDBConfig) d.

Definition v_MLConfig (l : string) (d : list (string * pyval)) : V MLConfig.t :=
  inr MLConfig.Make
  <*> field l "enabled" (Some true) v_bool d
  <*> field l "confidence_threshold" (Some 0.75%float) (v_float 0 1) d
  <*> field l "retrain_interval" (Some 100) (v_int 10 None) d
  <*> field l "italian_music_boost" (Some 1.2%float) (v_float 1 2) d.

Definition v_ReviewConfig (l : string) (d : list (string * pyval))
  : V ReviewConfig.t :=
  inr ReviewConfig.Make
  <*> field l "enabled" (Some true) v_bool d
  <*> field l "confidence_threshold" (Some 0.75%float) (v_float 0 1) d
  <*> field l "auto_approve_above" (Some 0.95%float) (v_float 0 1) d.

Definition v_USBConfig (l : string) (d : list (string * pyval)) : V USBConfig.t :=
  inr USBConfig.Make
  <*> field l "enabled" (Some true) v_bool d
  <*> field l "auto_detect" (Some true) v_bool d
  <*> field l "cache_enabled" (Some true) v_bool d
  <*> field l "resume_on_reconnect" (Some true) v_bool d.

Definition v_BackupConfig (l : string) (d : list (string * pyval))
  : V BackupConfig.t :=
  inr BackupConfig.Make
  <*> field l "auto_commit" (Some true) v_bool d
  <*> field l "commit_interval" (Some 10) (v_int 1 None) d
  <*> field l "auto_push" (Some true) v_bool d
  <*> field l "push_interval" (Some 50) (v_int 1 None) d.

Definition v_Config (d : list (string * pyval)) : V Config.t :=
  inr Config.Make
  <*> field "" "app" (Some AppConfig.default) (v_model "AppConfig" v_AppConfig) d
  <*> field "" "paths" None (v_model "PathsConfig" v_PathsConfig) d
  <*> field "" "fingerprinting" (Some FingerprintingConfig.default)
        (v_model "FingerprintingConfig" v_FingerprintingConfig) d
  <*> field "" "metadata" (Some MetadataConfig.default)
        (v_model "MetadataConfig" v_MetadataConfig) d
  <*> field "" "ml" (Some MLConfig.default) (v_model "MLConfig" v_MLConfig) d
  <*> field "" "review" (Some ReviewConfig.default)
        (v_model "ReviewConfig" v_ReviewConfig) d
  <*> field "" "usb" (Some USBConfig.default) (v_model "USBConfig" v_USBConfig) d
  <*> field "" "backup" (Some BackupConfig.default)
        (v_model "BackupConfig" v_BackupConfig) d.

(** [Config] applied to the unpacked [config_dict]: what is unpacked has to
    be a mapping. *)
Definition Config_init (config_dict : pyval) : exn + Config.t :=
  match config_dict with
  | PDict d =>
    match v_Config d with
    | inr c => inr c
    | inl errs => inl (ValidationError "Config" errs)
    end
  | _ => inl (TypeError ("Config() argument after ** must be a mapping, not "
                         +:+ type_name config_dict))
  end.

End Validation.

(** ** The state of a run *)

Module ConfigManager.
Record t := Make {
  config_path : string;
  secrets_path : string;
  config : option Config.t
}.
End ConfigManager.

Module LoggerManager.
Record t := Make {
  log_dir : string;
  log_level : string;
  rotation : string;
  retention : string;
  compression : string
}.
End LoggerManager.

(** A handler of the loguru logger: where it writes, its minimum level and
    whether its filter keeps only the records bound with [audit]. *)
Inductive sink := Stdout | LogFile (path : string).

Record handler := Handler {
  h_sink : sink;
  h_level : string;
  h_audit_only : bool
}.

(** A call of a logging method: level, message, and whether the record was
    bound with [audit=True]. *)
Record log_record := LogRecord {
  r_level : string;
  r_message : string;
  r_audit : bool
}.

(** What [yaml.safe_load] makes of a text file: a value, or the exception
    it raises on that file. *)
Inductive text_file :=
| Yaml (v : pyval)
| NotYaml (e : exn).

(** The file system as the program sees it (text files, directories, SQLite
    files, kept apart), the two output streams, the loguru logger, and the
    module globals [_config_manager] and [_logger_manager]. *)
Record world := World {
  files : gmap string text_file;
  dirs : gset string;
  sqlite : gmap string database_file;
  stdout : list string;
  stderr : list string;
  handlers : list handler;
  emitted : list log_record;
  _config_manager : option ConfigManager.t;
  _logger_manager : option LoggerManager.t
}.

Definition set_dirs (x : gset string) (w : world) : world :=
  World (files w) x (sqlite w) (stdout w) (stderr w) (handlers w) (emitted w)
        (_config_manager w) (_logger_manager w).
Definition set_sqlite (x : gmap string database_file) (w : world) : world :=
  World (files w) (dirs w) x (stdout w) (stderr w) (handlers w) (emitted w)
        (_config_manager w) (_logger_manager w).
Definition set_stdout (x : list string) (w : world) : world :=
  World (files w) (dirs w) (sqlite w) x (stderr w) (handlers w) (emitted w)
        (_config_manager w) (_logger_manager w).
Definition set_stderr (x : list string) (w : world) : world :=
  World (files w) (dirs w) (sqlite w) (stdout w) x (handlers w) (emitted w)
        (_config_manager w) (_logger_manager w).
Definition set_handlers (x : list handler) (w : world) : world :=
  World (files w) (dirs w) (sqlite w) (stdout w) (stderr w) x (emitted w)
        (_config_manager w) (_logger_manager w).
Definition set_emitted (x : list log_record) (w : world) : world :=
  World (files w) (dirs w) (sqlite w) (stdout w) (stderr w) (handlers w) x
        (_config_manager w) (_logger_manager w).
Definition set__config_manager (x : option ConfigManager.t) (w : world) : world :=
  World (files w) (dirs w) (sqlite w) (stdout w) (stderr w) (handlers w)
        (emitted w) x (_logger_manager w).
Definition set__logger_manager (x : option LoggerManager.t) (w : world) : world :=
  World (files w) (dirs w) (sqlite w) (stdout w) (stderr w) (handlers w)
        (emitted w) (_config_manager w) x.

(** [print(s)] and [print(s, file=sys.stderr)]. *)
Definition print (s : string) : M world unit :=
  modify (fun w => set_stdout (stdout w ++ [s]) w).
Definition print_stderr (s : string) : M world unit :=
  modify (fun w => set_stderr (stderr w ++ [s]) w).

(** [Path(p).exists()]. *)
Definition path_exists (p : string) (w : world) : bool :=
  bool_decide (p ∈ dom (files w)) || bool_decide (p ∈ dirs w).

(** [with open(p, 'r') as f: yaml.safe_load(f)]. *)
Definition yaml_safe_load (p : string) : M world pyval := fun w =>
  match files w !! p with
  | Some (Yaml v) => (inr v, w)
  | Some (NotYaml e) => (inl e, w)
  | None =>
    if bool_decide (p ∈ dirs w)
    then (inl (IsADirectoryError ("[Errno 21] Is a directory: '" +:+ p +:+ "'")), w)
    else (inl (FileNotFoundError
                 ("[Errno 2] No such file or directory: '" +:+ p +:+ "'")), w)
  end.

(** [Path(p).mkdir(parents=True, exist_ok=True)]: an existing directory is
    accepted, an existing file is not. *)
Definition mkdir (p : string) : M world unit := fun w =>
  if bool_decide (p ∈ dom (files w))
  then (inl (FileExistsError ("[Errno 17] File exists: '" +:+ p +:+ "'")), w)
  else (inr tt, set_dirs ({[p]} ∪ dirs w) w).

(** A method of an object [self] of type [T]: its state is the object and
    the world. *)
Definition in_world {T A} (m : M world A) : M (T * world) A := fun s =>
  match m (snd s) with
  | (r, w') => (r, (fst s, w'))
  end.
Definition self {T} : M (T * world) T := gets fst.
Definition set_self {T} (x : T) : M (T * world) unit :=
  modify (fun s => (x, snd s)).

(** ** src/utils/config.py: the loader *)

(** [ConfigManager(config_path)]: the secrets path does not depend on the
    argument. *)
Definition ConfigManager_init (config_path : string) : ConfigManager.t :=
  {| ConfigManager.config_path := config_path;
     ConfigManager.secrets_path := "config/secrets.yaml";
     ConfigManager.config := None |}.

(** The three statements under [# Merge TMDB API key from secrets], on a
    [config_dict] and the [key] read from the secrets, giving the
    [config_dict] they leave. *)
Definition set_tmdb_api_key (key config_dict : pyval) : exn + pyval :=
  match py_contains "metadata" config_dict with
  | inl e => inl e
  | inr has_metadata =>
    match (if has_metadata then inr config_dict
           else py_setitem config_dict "metadata" (PDict [])) with
    | inl e => inl e
    | inr c1 =>
      match py_getitem c1 "metadata" with
      | inl e => inl e
      | inr m =>
        match py_contains "tmdb" m with
        | inl e => inl e
        | inr has_tmdb =>
          match (if has_tmdb then inr m else py_setitem m "tmdb" (PDict [])) with
          | inl e => inl e
          | inr m1 =>
            match py_getitem m1 "tmdb" with
            | inl e => inl e
            | inr t =>
              match py_setitem t "api_key" key with
              | inl e => inl e
              | inr t1 =>
                match py_setitem m1 "tmdb" t1 with
                | inl e => inl e
                | inr m2 => py_setitem c1 "metadata" m2
                end
              end
            end
          end
        end
      end
    end
  end.

(** The body of [if self.secrets_path.exists():] once the file is read:
    [secrets] is what [yaml.safe_load] gave. *)
Definition merge_secrets (loaded config_dict : pyval) : exn + pyval :=
  let secrets := if truthy loaded then loaded else PDict [] in
  match py_contains "tmdb_api_key" secrets with
  | inl e => inl e
  | inr false => inr config_dict
  | inr true =>
    match py_getitem secrets "tmdb_api_key" with
    | inl e => inl e
    | inr key =>
      if truthy key then set_tmdb_api_key key config_dict else inr config_dict
    end
  end.

Section Loader.
Context `{Pydantic}.

(** [ConfigManager._create_directories]. *)
Definition _create_directories : M (ConfigManager.t * world) unit :=
  do me <- self ;
  match ConfigManager.config me with
  | None => ret tt
  | Some c =>
    run in_world (mkdir (PathsConfig.cache_folder (Config.paths c))) ;
    run in_world (mkdir (PathsConfig.models_folder (Config.paths c))) ;
    run in_world (mkdir (PathsConfig.queue_folder (Config.paths c))) ;
    in_world (mkdir (PathsConfig.log_folder (Config.paths c)))
  end.

(** [ConfigManager.load]. *)
Definition ConfigManager_load : M (ConfigManager.t * world) Config.t :=
  do me <- self ;
  do found <- gets (fun s => path_exists (ConfigManager.config_path me) (snd s)) ;
  if negb found then
    raise (FileNotFoundError ("Configuration file not found: "
                              +:+ ConfigManager.config_path me))
  else
    do config_dict <- in_world (yaml_safe_load (ConfigManager.config_path me)) ;
    do has_secrets <-
      gets (fun s => path_exists (ConfigManager.secrets_path me) (snd s)) ;
    do config_dict <-
      (if has_secrets then
         do secrets <- in_world (yaml_safe_load (ConfigManager.secrets_path me)) ;
         lift (merge_secrets secrets config_dict)
       else ret config_dict) ;
    do c <- lift (Config_init config_dict) ;
    run set_self {| ConfigManager.config_path := ConfigManager.config_path me;
                    ConfigManager.secrets_path := ConfigManager.secrets_path me;
                    ConfigManager.config := Some c |} ;
    run _create_directories ;
    ret c.

(** [ConfigManager.get]. *)
Definition ConfigManager_get (me : ConfigManager.t) : exn + Config.t :=
  match ConfigManager.config me with
  | None => inl (RuntimeError "Configuration not loaded. Call load() first.")
  | Some c => inr c
  end.

(** [load_config(config_path)].  The global names the new manager before
    [load] runs, so it sees what [load] did to the manager also when [load]
    raises. *)
Definition load_config (config_path : string) : M world Config.t := fun w =>
  match ConfigManager_load (ConfigManager_init config_path, w) with
  | (r, (me, w')) => (r, set__config_manager (Some me) w')
  end.

(** [get_config()]. *)
Definition get_config : M world Config.t := fun w =>
  match _config_manager w with
  | None =>
    (inl (RuntimeError "Configuration not loaded. Call load_config() first."), w)
  | Some me => (ConfigManager_get me, w)
  end.

End Loader.

(** ** src/utils/logger.py *)

(** The levels loguru knows; [logger.add] refuses any other name. *)
Definition loguru_levels : list string :=
  ["TRACE"; "DEBUG"; "INFO"; "SUCCESS"; "WARNING"; "ERROR"; "CRITICAL"].

(** [logger.add(sink, level=level, ...)]. *)
Definition logger_add (h : handler) : M world unit :=
  if bool_decide (h_level h ∈ loguru_levels)
  then modify (fun w => set_handlers (handlers w ++ [h]) w)
  else raise (ValueError ("Level '" +:+ h_level h +:+ "' does not exist")).

(** [LoggerManager._setup_console_handler]. *)
Definition _setup_console_handler (me : LoggerManager.t) : M world unit :=
  logger_add (Handler Stdout (LoggerManager.log_level me) false).

(** [LoggerManager._setup_file_handlers]; [self.log_dir / name] is written
    with the separator. *)
Definition _setup_file_handlers (me : LoggerManager.t) : M world unit :=
  run logger_add (Handler (LogFile (LoggerManager.log_dir me +:+ "/app.log"))
                          "DEBUG" false) ;
  run logger_add (Handler (LogFile (LoggerManager.log_dir me +:+ "/error.log"))
                          "ERROR" false) ;
  logger_add (Handler (LogFile (LoggerManager.log_dir me +:+ "/audit.log"))
                      "INFO" true).

(** [LoggerManager(log_dir, log_level, rotation, retention)]: the
    constructor, with [compression] at its default. *)
Definition LoggerManager_init (log_dir log_level rotation retention : string)
  : M world LoggerManager.t :=
  let me := {| LoggerManager.log_dir := log_dir;
               LoggerManager.log_level := log_level;
               LoggerManager.rotation := rotation;
               LoggerManager.retention := retention;
               LoggerManager.compression := "zip" |} in
  run mkdir log_dir ;
  run modify (set_handlers []) ;
  run _setup_console_handler me ;
  run _setup_file_handlers me ;
  ret me.

(** The loguru logger is one object for the whole process; a reference to
    it is given as the handlers it has. *)
Definition logger := list handler.

(** [LoggerManager.get_logger]. *)
Definition LoggerManager_get_logger (me : LoggerManager.t) : M world logger :=
  gets handlers.

(** [logger.info(m)] and its siblings. *)
Definition log (level m : string) : M world unit :=
  modify (fun w => set_emitted (emitted w ++ [LogRecord level m false]) w).


(** [init_logger(log_dir, log_level)], with [rotation] and [retention] at
    their defaults as the program calls it.  The global is assigned when the
    constructor has returned. *)
Definition init_logger (log_dir log_level : string) : M world logger :=
  do me <- LoggerManager_init log_dir log_level "10 MB" "1 week" ;
  run modify (set__logger_manager (Some me)) ;
  LoggerManager_get_logger me.



(** ** src/utils/database.py: the manager *)

Module DatabaseManager.
Record t := Make { db_path : string }.
End DatabaseManager.

(** The URL [sqlite:///] followed by an empty path or by [:memory:] names a
    database in memory, which no file keeps. *)
Definition in_memory (db_path : string) : bool :=
  String.eqb db_path "" || String.eqb db_path ":memory:".

(** Opening the file of an engine: a directory cannot be opened, a text
    file is not a database, a path that does not exist yet is a new empty
    database. *)
Definition connect (db_path : string) : M world database_file := fun w =>
  if in_memory db_path then (inr empty_database, w)
  else if bool_decide (db_path ∈ dirs w)
  then (inl (OperationalError "unable to open database file"), w)
  else if bool_decide (db_path ∈ dom (files w))
  then (inl (DatabaseError "file is not a database"), w)
  else (inr (default empty_database (sqlite w !! db_path)), w).

(** Committing to the file of an engine. *)
Definition commit (db_path : string) (db : database_file) : M world unit :=
  if in_memory db_path then ret tt
  else modify (fun w => set_sqlite (<[db_path := db]> (sqlite w)) w).

(** [DatabaseManager.create_tables]. *)
Definition create_tables (me : DatabaseManager.t) : M world unit :=
  do db <- connect (DatabaseManager.db_path me) ;
  commit (DatabaseManager.db_path me) (create_all db).


(** [init_database(db_path)]. *)
Definition init_database (db_path : string) : M world DatabaseManager.t :=
  let db_manager := DatabaseManager.Make db_path in
  run create_tables db_manager ;
  ret db_manager.

(** ** main.py *)

Module MediaOrganizer.
Record t := Make {
  config : Config.t;
  logger : logger;
  db_manager : DatabaseManager.t
}.
End MediaOrganizer.

Section Main.
Context `{Pydantic}.

(** [MediaOrganizer._validate_paths], on an object whose [config] and
    [logger] are set. *)
Definition _validate_paths (config : Config.t) : M world unit :=
  let input_path := PathsConfig.input_folder (Config.paths config) in
  let output_path := PathsConfig.output_folder (Config.paths config) in
  do input_exists <- gets (path_exists input_path) ;
  run (if negb input_exists then
         run log "WARNING" ("Input folder does not exist: " +:+ input_path) ;
         run log "INFO" "Creating input folder..." ;
         mkdir input_path
       else ret tt) ;
  do output_exists <- gets (path_exists output_path) ;
  run (if negb output_exists then
         run log "WARNING" ("Output folder does not exist: " +:+ output_path) ;
         run log "INFO" "Creating output folder..." ;
         mkdir output_path
       else ret tt) ;
  run log "INFO" ("Input folder: " +:+ input_path) ;
  log "INFO" ("Output folder: " +:+ output_path).

(** [MediaOrganizer(config_path)]. *)
Definition MediaOrganizer_init (config_path : string) : M world MediaOrganizer.t :=
  do config <- load_config config_path ;
  do logger <- init_logger (PathsConfig.log_folder (Config.paths config))
                           (AppConfig.log_level (Config.app config)) ;
  run log "INFO" ("Starting " +:+ AppConfig.name (Config.app config) +:+ " v"
                  +:+ AppConfig.version (Config.app config)) ;
  do db_manager <- init_database (PathsConfig.database (Config.paths config)) ;
  run log "INFO" ("Database initialized: "
                  +:+ PathsConfig.database (Config.paths config)) ;
  run _validate_paths config ;
  ret (MediaOrganizer.Make config logger db_manager).

(** [MediaOrganizer.shutdown]. *)
Definition shutdown (me : MediaOrganizer.t) : M world unit :=
  run log "INFO" "Shutting down Media Organizer..." ;
  log "INFO" "Shutdown complete".

(** [MediaOrganizer.run]: the body of the [try], whose statements do not
    raise, then the [finally]. *)
Definition MediaOrganizer_run (me : MediaOrganizer.t) : M world unit :=
  run log "INFO" "Media Organizer is running..." ;
  run log "INFO" "Press Ctrl+C to stop" ;
  run log "INFO" "Processing pipeline not yet implemented" ;
  run log "INFO" "Ready for Phase 3 implementation" ;
  shutdown me.

(** The namespace [parser.parse_args()] returns. *)
Record args := Args {
  config : string;
  init_db : bool
}.

(** The body of the [try] in [main]. *)
Definition main_try (a : args) : M world Z :=
  if init_db a then
    run print "Initializing database..." ;
    do config <- load_config (config a) ;
    run init_database (PathsConfig.database (Config.paths config)) ;
    run print ("Database initialized: "
               +:+ PathsConfig.database (Config.paths config)) ;
    ret 0
  else
    do app <- MediaOrganizer_init (config a) ;
    run MediaOrganizer_run app ;
    ret 0.

(** [isinstance(e, ValueError)]. *)
Definition is_ValueError (e : exn) : bool :=
  match e with
  | ValueError _ | ValidationError _ _ => true
  | _ => false
  end.

Definition is_FileNotFoundError (e : exn) : bool :=
  match e with
  | FileNotFoundError _ => true
  | _ => false
  end.

Definition newline : string := String (Ascii.ascii_of_nat 10) "".

(** The report pydantic prints for a [ValidationError]: a header, then for
    each error a line with its location and an indented line with its
    message.  (pydantic ends the message line with the type of the error
    and the input, and adds by default a line with a link; the embedding
    leaves those out.) *)
Fixpoint report_entries (errors : list error_detail) : string :=
  match errors with
  | [] => ""
  | e :: rest =>
    newline +:+ loc e +:+ newline +:+ "  " +:+ msg e +:+ report_entries rest
  end.

Definition validation_report (title : string) (errors : list error_detail)
  : string :=
  pretty (length errors) +:+ " validation error"
  +:+ (if bool_decide (length errors = 1%nat) then "" else "s")
  +:+ " for " +:+ title +:+ report_entries errors.

(** [str(e)]. *)
Definition str (e : exn) : string :=
  match e with
  | ValidationError title errors => validation_report title errors
  | IntegrityError NotNullFailed => "(sqlite3.IntegrityError) NOT NULL constraint failed"
  | IntegrityError UniqueFailed => "(sqlite3.IntegrityError) UNIQUE constraint failed"
  | FileNotFoundError m | FileExistsError m | IsADirectoryError m | ValueError m
  | TypeError m | KeyError m | AttributeError m | RuntimeError m | YAMLError m
  | OperationalError m | DatabaseError m | UnmappedInstanceError m => m
  end.

(** [main()], after [args = parser.parse_args()]: the value it returns is
    the exit status. *)
Definition main (a : args) : M world Z :=
  catch (main_try a) (fun e =>
    if is_FileNotFoundError e then
      run print_stderr ("Error: " +:+ str e) ;
      ret 1
    else if is_ValueError e then
      run print_stderr ("Configuration error: " +:+ str e) ;
      ret 1
    else
      run print_stderr ("Fatal error: " +:+ str e) ;
      ret 1).

End Main.


(** ** Concrete data

    An instance of the conversions for running the loader on concrete
    files: an input that already is a [bool], an [int] or a [float] is
    taken as it is, anything else is refused.  pydantic's lax mode accepts
    more; the theorems hold for every instance, and the files below have no
    field of these types. *)
Definition exact_inputs : Pydantic :=
  {| lax_bool v := match v with
                   | PBool b => inr b
                   | _ => inl "Input should be a valid boolean"
                   end;
     lax_int v := match v with
                  | PInt n => inr n
                  | _ => inl "Input should be a valid integer"
                  end;
     lax_float v := match v with
                    | PFloat f => inr f
                    | _ => inl "Input should be a valid number"
                    end |}.

(** A fresh process in an empty working directory. *)
Definition empty_world : world :=
  {| files := ∅; dirs := ∅; sqlite := ∅; stdout := []; stderr := [];
     handlers := []; emitted := [];
     _config_manager := None; _logger_manager := None |}.

Definition with_file (p : string) (f : text_file) (w : world) : world :=
  World (<[p := f]> (files w)) (dirs w) (sqlite w) (stdout w) (stderr w)
        (handlers w) (emitted w) (_config_manager w) (_logger_manager w).

(** A main configuration file that sets the two required folders and an
    API key. *)
Definition sample_config : pyval :=
  PDict [("paths", PDict [("input_folder", PStr "/media/in");
                          ("output_folder", PStr "/media/out")]);
         ("metadata", PDict [("tmdb", PDict [("api_key", PStr "from-config")])])].

(** The same with the placeholder of the template left in. *)
Definition placeholder_config : pyval :=
  PDict [("paths", PDict [("input_folder", PStr "/path/to/input");
                          ("output_folder", PStr "/media/out")])].

Definition sample_world : world :=
  with_file "config/config.yaml" (Yaml sample_config) empty_world.

(** ** The specification's side, and sample rows *)



(** The scenario file of the specification, once organized. *)
Definition song : MediaFile.row :=
  {| MediaFile.id := 1;
     MediaFile.original_path := "/in/song.mp3";
     MediaFile.filename := "song.mp3";
     MediaFile.file_size := 5242880;
     MediaFile.file_hash := "abc123";
     MediaFile.media_type := AUDIO;
     MediaFile.status := Some COMPLETED;
     MediaFile.confidence_score := Some 0.6%float;
     MediaFile.created_at := Some 1000;
     MediaFile.updated_at := Some 2000;
     MediaFile.processed_at := Some 2000;
     MediaFile.output_path := Some "/out/song.mp3";
     MediaFile.usb_device_id := None;
     MediaFile.is_on_usb := Some false;
     MediaFile.error_message := None;
     MediaFile.retry_count := Some 0 |}.

Definition song_fingerprint : Fingerprint.row :=
  {| Fingerprint.id := 7;
     Fingerprint.media_file_id := Some 1;
     Fingerprint.chromaprint_fingerprint := Some "AQAAf0mUaEkSRZEGAA";
     Fingerprint.chromaprint_duration := Some 215.5%float;
     Fingerprint.acoustid_id := None;
     Fingerprint.acoustid_score := None;
     Fingerprint.video_hash := None;
     Fingerprint.scene_hashes := None;
     Fingerprint.duration := Some 215.5%float;
     Fingerprint.bitrate := Some 320000;
     Fingerprint.sample_rate := Some 44100;
     Fingerprint.channels := Some 2;
     Fingerprint.codec := Some "mp3";
     Fingerprint.created_at := Some 1500 |}.

(** A catalog that holds the song and its fingerprint. *)
Definition catalog : database_file :=
  {| media_files := Some [song];
     fingerprints := Some [song_fingerprint];
     media_metadata := Some [];
     ml_features := Some [];
     ml_models := Some [];
     review_queue := Some [];
     ml_feedback := Some [];
     processing_logs := Some [] |}.

Definition has_id (i : Z) (r : MediaFile.row) : bool :=
  bool_decide (MediaFile.id r = i).





(** The constructor call of the usage notes: the five required columns, the
    rest left unset. *)
Definition new_MediaFile (p fn : string) (sz : Z) (h : string) (mt : MediaType)
  : MediaFile_kwargs.t :=
  {| MediaFile_kwargs.id := None;
     MediaFile_kwargs.original_path := Some p;
     MediaFile_kwargs.filename := Some fn;
     MediaFile_kwargs.file_size := Some sz;
     MediaFile_kwargs.file_hash := Some h;
     MediaFile_kwargs.media_type := Some mt;
     MediaFile_kwargs.status := Unset;
     MediaFile_kwargs.confidence_score := Unset;
     MediaFile_kwargs.created_at := Unset;
     MediaFile_kwargs.updated_at := Unset;
     MediaFile_kwargs.processed_at := None;
     MediaFile_kwargs.output_path := None;
     MediaFile_kwargs.usb_device_id := None;
     MediaFile_kwargs.is_on_usb := Unset;
     MediaFile_kwargs.error_message := None;
     MediaFile_kwargs.retry_count := Unset |}.

(** [MediaMetadata(media_file_id=m, is_italian=it, italian_confidence=c)],
    the other columns left unset. *)
Definition new_MediaMetadata (m : Z) (it : arg bool) (c : arg float)
  : MediaMetadata_kwargs.t :=
  {| MediaMetadata_kwargs.id := None;
     MediaMetadata_kwargs.media_file_id := Some m;
     MediaMetadata_kwargs.title := None;
     MediaMetadata_kwargs.artist := None;
     MediaMetadata_kwargs.album := None;
     MediaMetadata_kwargs.year := None;
     MediaMetadata_kwargs.genre := None;
     MediaMetadata_kwargs.musicbrainz_id := None;
     MediaMetadata_kwargs.musicbrainz_artist_id := None;
     MediaMetadata_kwargs.musicbrainz_album_id := None;
     MediaMetadata_kwargs.track_number := None;
     MediaMetadata_kwargs.disc_number := None;
     MediaMetadata_kwargs.tmdb_id := None;
     MediaMetadata_kwargs.imdb_id := None;
     MediaMetadata_kwargs.season := None;
     MediaMetadata_kwargs.episode := None;
     MediaMetadata_kwargs.description := None;
     MediaMetadata_kwargs.language := None;
     MediaMetadata_kwargs.country := None;
     MediaMetadata_kwargs.is_italian := it;
     MediaMetadata_kwargs.italian_confidence := c;
     MediaMetadata_kwargs.artwork_url := None;
     MediaMetadata_kwargs.artwork_local_path := None;
     MediaMetadata_kwargs.metadata_source := None;
     MediaMetadata_kwargs.metadata_quality := Unset;
     MediaMetadata_kwargs.created_at := Unset;
     MediaMetadata_kwargs.updated_at := Unset |}.

Definition metadata_key_is_free (k : option Z) (rows : list MediaMetadata.row)
  : Prop :=
  match k with
  | Some i => i ∉ MediaMetadata.id <$> rows
  | None => True
  end.

(** ** Reading aids for the loader and the entry point *)

(** A computation leaves an observation [f] of the state as it was,
    whether it returns or raises. *)
Definition preserves {S A X} (f : S -> X) (m : M S A) : Prop :=
  forall s, f (snd (m s)) = f s.

(** What the secrets file makes of the main [config_dict]. *)
Definition secrets_step (secrets_path : string) (config_dict : pyval) (w : world)
  : exn + pyval :=
  if path_exists secrets_path w then
    match fst (yaml_safe_load secrets_path w) with
    | inl e => inl e
    | inr secrets => merge_secrets secrets config_dict
    end
  else inr config_dict.

(** The configuration [load] validates, or the exception it raises before
    it creates a directory. *)
Definition load_value `{Pydantic} (me : ConfigManager.t) (w : world)
  : exn + Config.t :=
  if negb (path_exists (ConfigManager.config_path me) w) then
    inl (FileNotFoundError ("Configuration file not found: "
                            +:+ ConfigManager.config_path me))
  else
    match fst (yaml_safe_load (ConfigManager.config_path me) w) with
    | inl e => inl e
    | inr config_dict =>
      match secrets_step (ConfigManager.secrets_path me) config_dict w with
      | inl e => inl e
      | inr merged => Config_init merged
      end
    end.

Definition with_config (c : Config.t) (me : ConfigManager.t) : ConfigManager.t :=
  {| ConfigManager.config_path := ConfigManager.config_path me;
     ConfigManager.secrets_path := ConfigManager.secrets_path me;
     ConfigManager.config := Some c |}.

(** The folders [_create_directories] makes, in its order. *)
Definition required_directories (c : Config.t) : list string :=
  [PathsConfig.cache_folder (Config.paths c);
   PathsConfig.models_folder (Config.paths c);
   PathsConfig.queue_folder (Config.paths c);
   PathsConfig.log_folder (Config.paths c)].

(** The line [main] prints for an exception. *)
Definition report (e : exn) : string :=
  (if is_FileNotFoundError e then "Error: "
   else if is_ValueError e then "Configuration error: "
   else "Fatal error: ") +:+ str e.

(** What the secrets source provides for the API key, if anything. *)
Definition secret_of (secrets : pyval) : option pyval :=
  match secrets with
  | PDict d => assoc "tmdb_api_key" d
  | _ => None
  end.

(** [config_dict['metadata']['tmdb']['api_key']], where the three keys are
    there. *)
Definition api_key_entry (config_dict : pyval) : option pyval :=
  match config_dict with
  | PDict d =>
    match assoc "metadata" d with
    | Some (PDict m) =>
      match assoc "tmdb" m with
      | Some (PDict t) => assoc "api_key" t
      | _ => None
      end
    | _ => None
    end
  | _ => None
  end.

(** The API key of a loaded configuration. *)
Definition tmdb_api_key (c : Config.t) : string :=
  TMDBConfig.api_key (MetadataConfig.tmdb (Config.metadata c)).

(** The secrets source has no value for the key, or an empty one. *)
Definition secret_absent_or_empty (secrets : pyval) : Prop :=
  secret_of secrets = None \/
  exists key, secret_of secrets = Some key /\ truthy key = false.

Definition secrets_file (key : string) : text_file :=
  Yaml (PDict [("tmdb_api_key", PStr key)]).

(** The API key of the configuration a load returned, if it returned one. *)
Definition loaded_api_key (r : exn + Config.t) : option string :=
  match r with
  | inr c => Some (tmdb_api_key c)
  | inl _ => None
  end.

(** A working directory whose secrets file holds [key], with the main
    configuration kept elsewhere. *)
Definition world_with_secret (key : string) : world :=
  with_file "config/secrets.yaml" (secrets_file key)
    (with_file "/etc/media-organizer/config.yaml" (Yaml sample_config)
       empty_world).







(** ** Further reading aids: the catalog *)

(** The three uniqueness constraints of [media_files]: the primary key,
    [original_path] and [file_hash]. *)
Definition unique_keys (db : database_file) : Prop :=
  match media_files db with
  | Some rows =>
    NoDup (MediaFile.id <$> rows) /\
    NoDup (MediaFile.original_path <$> rows) /\
    NoDup (MediaFile.file_hash <$> rows)
  | None => True
  end.

(** The tables of a file other than [media_files]. *)
Definition other_tables (db : database_file) :=
  (fingerprints db, media_metadata db, ml_features db, ml_models db,
   review_queue db, ml_feedback db, processing_logs db).

(** A second file in the catalog, not yet processed. *)
Definition other_song : MediaFile.row :=
  {| MediaFile.id := 2;
     MediaFile.original_path := "/in/other.mp3";
     MediaFile.filename := "other.mp3";
     MediaFile.file_size := 1024;
     MediaFile.file_hash := "def456";
     MediaFile.media_type := AUDIO;
     MediaFile.status := Some PENDING;
     MediaFile.confidence_score := Some 0%float;
     MediaFile.created_at := Some 2500;
     MediaFile.updated_at := Some 2500;
     MediaFile.processed_at := None;
     MediaFile.output_path := None;
     MediaFile.usb_device_id := None;
     MediaFile.is_on_usb := Some false;
     MediaFile.error_message := None;
     MediaFile.retry_count := Some 0 |}.

Definition two_songs : database_file := set_media_files [song; other_song] catalog.




(** ** Further reading aids: the configuration *)

(** A folder that [validate_paths] accepts. *)
Definition configured (v : string) : Prop :=
  v <> "" /\ v <> "/path/to/input" /\ v <> "/path/to/output".

(** [lo <= x <= hi] between floats. *)
Definition in_range (lo hi x : float) : Prop :=
  PrimFloat.leb lo x = true /\ PrimFloat.leb x hi = true.

(** The constraints the fields declare, on a configuration. *)
Definition Config_valid (c : Config.t) : Prop :=
  AppConfig.log_level (Config.app c)
    ∈ ["DEBUG"; "INFO"; "WARNING"; "ERROR"; "CRITICAL"] /\
  configured (PathsConfig.input_folder (Config.paths c)) /\
  configured (PathsConfig.output_folder (Config.paths c)) /\
  1 <= VideoFingerprintConfig.thumbnail_count
         (FingerprintingConfig.video (Config.fingerprinting c)) <= 10 /\
  in_range 0.5 5 (MusicBrainzConfig.rate_limit
                    (MetadataConfig.musicbrainz (Config.metadata c))) /\
  in_range 0 1 (MLConfig.confidence_threshold (Config.ml c)) /\
  10 <= MLConfig.retrain_interval (Config.ml c) /\
  in_range 1 2 (MLConfig.italian_music_boost (Config.ml c)) /\
  in_range 0 1 (ReviewConfig.confidence_threshold (Config.review c)) /\
  in_range 0 1 (ReviewConfig.auto_approve_above (Config.review c)) /\
  1 <= BackupConfig.commit_interval (Config.backup c) /\
  1 <= BackupConfig.push_interval (Config.backup c).

(** The errors of a validation outcome. *)
Definition errors_of {A} (x : V A) : list error_detail :=
  match x with
  | inl errors => errors
  | inr _ => []
  end.



Definition is_TypeError (e : exn) : bool :=
  match e with
  | TypeError _ => true
  | _ => false
  end.

Definition is_FileExistsError (e : exn) : bool :=
  match e with
  | FileExistsError _ => true
  | _ => false
  end.

(** A main configuration with a section for every model. *)
Definition full_config : pyval :=
  PDict [("app", PDict [("log_level", PStr "DEBUG")]);
         ("paths", PDict [("input_folder", PStr "/media/in");
                          ("output_folder", PStr "/media/out");
                          ("log_folder", PStr "/var/log/organizer")]);
         ("metadata", PDict [("musicbrainz", PDict [("rate_limit", PFloat 2%float)]);
                             ("tmdb", PDict [("enabled", PBool false);
                                             ("api_key", PStr "from-config")])]);
         ("ml", PDict [("confidence_threshold", PFloat 0.5%float);
                       ("retrain_interval", PInt 20)]);
         ("backup", PDict [("commit_interval", PInt 5)])].

(** A working directory whose secrets file holds a number for the key. *)
Definition world_with_numeric_secret : world :=
  with_file "config/secrets.yaml" (Yaml (PDict [("tmdb_api_key", PInt 12345)]))
    sample_world.

(** A working directory whose configuration file is empty: [yaml.safe_load]
    gives [None] for it. *)
Definition world_with_empty_config : world :=
  with_file "config/config.yaml" (Yaml PNone) empty_world.


(** ** Further reading aids: the logger *)






(** The handlers [LoggerManager(log_dir, log_level)] adds, in its order. *)
Definition installed_handlers (log_dir log_level : string) : list handler :=
  [Handler Stdout log_level false;
   Handler (LogFile (log_dir +:+ "/app.log")) "DEBUG" false;
   Handler (LogFile (log_dir +:+ "/error.log")) "ERROR" false;
   Handler (LogFile (log_dir +:+ "/audit.log")) "INFO" true].

(** The world an [init_logger] that returns leaves. *)
Definition after_init_logger (log_dir log_level : string) (w : world) : world :=
  set__logger_manager
    (Some (LoggerManager.Make log_dir log_level "10 MB" "1 week" "zip"))
    (set_handlers (installed_handlers log_dir log_level)
       (set_dirs ({[log_dir]} ∪ dirs w) w)).


(** ** Further reading aids: the application *)


(** Every table that is there keeps its rows. *)
Definition tables_kept (db db' : database_file) : Prop :=
  (is_Some (media_files db) -> media_files db' = media_files db) /\
  (is_Some (fingerprints db) -> fingerprints db' = fingerprints db) /\
  (is_Some (media_metadata db) -> media_metadata db' = media_metadata db) /\
  (is_Some (ml_features db) -> ml_features db' = ml_features db) /\
  (is_Some (ml_models db) -> ml_models db' = ml_models db) /\
  (is_Some (review_queue db) -> review_queue db' = review_queue db) /\
  (is_Some (ml_feedback db) -> ml_feedback db' = ml_feedback db) /\
  (is_Some (processing_logs db) -> processing_logs db' = processing_logs db).

(** Nothing was taken away between two worlds: every directory is still
    there, and every database file with every table it had, rows included. *)
Definition nothing_lost (w w' : world) : Prop :=
  dirs w ⊆ dirs w' /\
  forall p db, sqlite w !! p = Some db ->
    exists db', sqlite w' !! p = Some db' /\ tables_kept db db'.

(** A computation that takes nothing away, whether it returns or raises. *)
Definition loses_nothing {A} (m : M world A) : Prop :=
  forall w, nothing_lost w (snd (m w)).
(** * Properties *)

(** ** The status column *)





(** ** Inserting a MediaFile *)

Lemma max_list_bound (l : list Z) (m x : Z) :
  max_list l = Some m -> x ∈ l -> x <= m.
Proof.
  revert m. induction l as [|y l IH]; intros m Hm Hx.
  - inversion Hx.
  - cbn in Hm. apply elem_of_cons in Hx.
    destruct (max_list l) as [m'|] eqn:E.
    + injection Hm as <-. destruct Hx as [->|Hx]; [lia|].
      specialize (IH m' eq_refl Hx). lia.
    + injection Hm as <-. destruct Hx as [->|Hx]; [lia|].
      destruct l; [inversion Hx | cbn in E; destruct (max_list l); discriminate].
Qed.

Lemma next_id_fresh (ids : list Z) : next_id ids ∉ ids.
Proof.
  unfold next_id. intros Hin.
  destruct (max_list ids) as [m|] eqn:E.
  - pose proof (max_list_bound _ _ _ E Hin). lia.
  - destruct ids; [inversion Hin | cbn in E; destruct (max_list ids); discriminate].
Qed.

Lemma find_has_id_new (i : Z) (rows : list MediaFile.row) (r : MediaFile.row) :
  i ∉ MediaFile.id <$> rows -> MediaFile.id r = i ->
  find (has_id i) (rows ++ [r]) = Some r.
Proof.
  intros Hfresh Hr. induction rows as [|r0 rows IH]; cbn.
  - unfold has_id. rewrite bool_decide_eq_true_2 by assumption. reflexivity.
  - unfold has_id at 1. rewrite bool_decide_eq_false_2.
    + apply IH. intros Hin. apply Hfresh. cbn. right. assumption.
    + intros Heq. apply Hfresh. cbn. rewrite Heq. left.
Qed.





(** ** The confidence score *)





(** ** Deleting a MediaFile *)















(** ** The Italian flag of MediaMetadata *)

Lemma find_metadata_new (i : Z) (rows : list MediaMetadata.row)
    (r : MediaMetadata.row) :
  i ∉ MediaMetadata.id <$> rows -> MediaMetadata.id r = i ->
  find (fun r => bool_decide (MediaMetadata.id r = i)) (rows ++ [r]) = Some r.
Proof.
  intros Hfresh Hr. induction rows as [|r0 rows IH]; cbn.
  - rewrite bool_decide_eq_true_2 by assumption. reflexivity.
  - rewrite bool_decide_eq_false_2.
    + apply IH. intros Hin. apply Hfresh. cbn. right. assumption.
    + intros Heq. apply Hfresh. cbn. rewrite Heq. left.
Qed.

(** C8, as the code has it: a MediaMetadata row written with
    [is_italian=true] is accepted whatever is given for
    [italian_confidence], and reading it back yields [is_italian=true] and:
    0.92 when 0.92 was written, the default 0.0 when the confidence was left
    unset, NULL when NULL was written.  Nothing ties the two columns and
    nothing raises [ValidationError]. *)
Theorem italian_confidence_is_not_required
    (now : Z) (a : MediaMetadata_kwargs.t) (db : database_file)
    (rows : list MediaMetadata.row) :
  media_metadata db = Some rows ->
  metadata_key_is_free (MediaMetadata_kwargs.id a) rows ->
  taken (MediaMetadata_kwargs.media_file_id a)
        (MediaMetadata.media_file_id <$> rows) = false ->
  MediaMetadata_kwargs.is_italian a = Val true ->
  exists i db' r,
    add_MediaMetadata now a db = (inr i, db') /\
    get_MediaMetadata i db' = (inr (Some r), db') /\
    MediaMetadata.is_italian r = Some true /\
    (MediaMetadata_kwargs.italian_confidence a = Val 0.92%float ->
     MediaMetadata.italian_confidence r = Some 0.92%float) /\
    (MediaMetadata_kwargs.italian_confidence a = Unset ->
     MediaMetadata.italian_confidence r = Some 0%float) /\
    (MediaMetadata_kwargs.italian_confidence a = SqlNull ->
     MediaMetadata.italian_confidence r = None).
Proof.
  intros Hrows Hkey Hfk Hit. unfold add_MediaMetadata. rewrite Hrows.
  set (i := default (next_id (MediaMetadata.id <$> rows))
                    (MediaMetadata_kwargs.id a)).
  assert (Hi : i ∉ MediaMetadata.id <$> rows).
  { subst i. destruct (MediaMetadata_kwargs.id a); cbn in *;
      [assumption | apply next_id_fresh]. }
  cbv zeta. rewrite (bool_decide_eq_false_2 _ Hi), Hfk. cbn [orb].
  eexists i, _, (MediaMetadata_new_row now i a). split; [reflexivity|].
  unfold get_MediaMetadata. cbn [set_media_metadata media_metadata].
  rewrite find_metadata_new by (assumption || reflexivity).
  split; [reflexivity|]. cbn. rewrite Hit.
  repeat split; intros ->; reflexivity.
Qed.

Lemma italian_confidence_is_not_required_witness :
  exists i db' r,
    add_MediaMetadata 3000 (new_MediaMetadata 1 (Val true) (Val 0.92%float))
                      catalog = (inr i, db') /\
    get_MediaMetadata i db' = (inr (Some r), db') /\
    MediaMetadata.is_italian r = Some true /\
    MediaMetadata.italian_confidence r = Some 0.92%float.
Proof.
  destruct (italian_confidence_is_not_required 3000
              (new_MediaMetadata 1 (Val true) (Val 0.92%float)) catalog []
              eq_refl I eq_refl eq_refl)
    as (i & db' & r & Hadd & Hget & Hit & Hval & _).
  exists i, db', r. auto.
Defined.

(** C8, as the specification states it, fails: a row with [is_italian=true]
    and a NULL [italian_confidence] is accepted and stored; and with the
    confidence left unset the write is accepted too. *)
Lemma italian_without_confidence_is_stored :
  fst (add_MediaMetadata 3000 (new_MediaMetadata 1 (Val true) SqlNull) catalog)
  = inr 1 /\
  option_map (map (fun r => (MediaMetadata.is_italian r,
                             MediaMetadata.italian_confidence r)))
    (media_metadata
       (snd (add_MediaMetadata 3000 (new_MediaMetadata 1 (Val true) SqlNull)
                               catalog)))
  = Some [(Some true, None)] /\
  fst (add_MediaMetadata 3000 (new_MediaMetadata 1 (Val true) Unset) catalog)
  = inr 1.
Proof. repeat split. Qed.

(** ** The monad *)

Lemma bind_inr {S A B} (m : M S A) (k : A -> M S B) (s s' : S) (b : B) :
  bind m k s = (inr b, s') ->
  exists a s1, m s = (inr a, s1) /\ k a s1 = (inr b, s').
Proof.
  unfold bind. destruct (m s) as [[e|a] s1]; [discriminate|]. eauto.
Qed.

Lemma bind_inl {S A B} (m : M S A) (k : A -> M S B) (s s' : S) (e : exn) :
  bind m k s = (inl e, s') ->
  m s = (inl e, s') \/ exists a s1, m s = (inr a, s1) /\ k a s1 = (inl e, s').
Proof.
  unfold bind. destruct (m s) as [[e0|a] s1]; intros Hk;
    [left; injection Hk as -> ->; reflexivity | right; eauto].
Qed.

Lemma preserves_ret {S A X} (f : S -> X) (a : A) : preserves f (ret a).
Proof. intros s. reflexivity. Qed.

Lemma preserves_raise {S A X} (f : S -> X) (e : exn) :
  preserves f (raise e : M S A).
Proof. intros s. reflexivity. Qed.

Lemma preserves_lift {S A X} (f : S -> X) (r : exn + A) : preserves f (lift r).
Proof. intros s. reflexivity. Qed.

Lemma preserves_gets {S A X} (f : S -> X) (g : S -> A) : preserves f (gets g).
Proof. intros s. reflexivity. Qed.

Lemma preserves_modify {S X} (f : S -> X) (g : S -> S) :
  (forall s, f (g s) = f s) -> preserves f (modify g).
Proof. intros Hg s. apply Hg. Qed.

Lemma preserves_bind {S A B X} (f : S -> X) (m : M S A) (k : A -> M S B) :
  preserves f m -> (forall a, preserves f (k a)) -> preserves f (bind m k).
Proof.
  intros Hm Hk s. unfold bind. specialize (Hm s).
  destruct (m s) as [[e|a] s1]; cbn in *; [assumption|].
  rewrite Hk. assumption.
Qed.

Lemma preserves_catch {S A X} (f : S -> X) (m : M S A) (h : exn -> M S A) :
  preserves f m -> (forall e, preserves f (h e)) -> preserves f (catch m h).
Proof.
  intros Hm Hh s. unfold catch. specialize (Hm s).
  destruct (m s) as [[e|a] s1]; cbn in *; [|assumption].
  rewrite Hh. assumption.
Qed.

Lemma preserves_in_world {T A X} (f : world -> X) (m : M world A) :
  preserves f m ->
  preserves (fun s : T * world => f (snd s)) (in_world m).
Proof.
  intros Hm s. unfold in_world. specialize (Hm (snd s)).
  destruct (m (snd s)) as [r w']. exact Hm.
Qed.

Lemma preserves_self_in_world {T A} (m : M world A) :
  preserves (fst : T * world -> T) (in_world m).
Proof. intros s. unfold in_world. destruct (m (snd s)). reflexivity. Qed.

(** The steps that decide such goals: structure first, then the cases of a
    conditional. *)
Ltac preserve :=
  repeat first
    [ apply preserves_ret | apply preserves_raise | apply preserves_lift
    | apply preserves_gets | apply preserves_self_in_world
    | apply preserves_in_world
    | apply preserves_bind; [|intros ?]
    | apply preserves_catch; [|intros ?]
    | apply preserves_modify; intros ?; reflexivity
    | match goal with
      | |- preserves _ (if ?b then _ else _) => destruct b
      | |- preserves _ (match ?x with _ => _ end) => destruct x
      end ].

(** ** The file system *)

Lemma yaml_safe_load_state (p : string) (w : world) :
  snd (yaml_safe_load p w) = w.
Proof.
  unfold yaml_safe_load. destruct (files w !! p) as [[v|e]|]; try reflexivity.
  case_bool_decide; reflexivity.
Qed.

Lemma mkdir_preserves {X} (f : world -> X) (p : string) :
  (forall x w, f (set_dirs x w) = f w) -> preserves f (mkdir p).
Proof.
  intros Hf w. unfold mkdir. case_bool_decide; cbn; [reflexivity | apply Hf].
Qed.

Lemma print_preserves {X} (f : world -> X) (s : string) :
  (forall x w, f (set_stdout x w) = f w) -> preserves f (print s).
Proof. intros Hf w. apply Hf. Qed.

Lemma log_preserves {X} (f : world -> X) (l m : string) :
  (forall x w, f (set_emitted x w) = f w) -> preserves f (log l m).
Proof. intros Hf w. apply Hf. Qed.

(** ** The loader *)

Section LoaderFacts.
Context `{Pydantic}.

Lemma mkdir_ok (p : string) (w : world) :
  p ∉ dom (files w) -> mkdir p w = (inr tt, set_dirs ({[p]} ∪ dirs w) w).
Proof. intros Hp. unfold mkdir. rewrite bool_decide_eq_false_2; done. Qed.

Lemma mkdir_inr (p : string) (w w' : world) (u : unit) :
  mkdir p w = (inr u, w') ->
  (p ∉ dom (files w)) /\ w' = set_dirs ({[p]} ∪ dirs w) w.
Proof.
  unfold mkdir. case_bool_decide; [discriminate|].
  intros [= _ <-]. auto.
Qed.

Lemma create_directories_preserves {X} (f : world -> X) :
  (forall x w, f (set_dirs x w) = f w) ->
  preserves (fun s : ConfigManager.t * world => f (snd s)) _create_directories.
Proof.
  intros Hf. unfold _create_directories, self.
  preserve; apply mkdir_preserves; assumption.
Qed.

Lemma create_directories_self : preserves fst _create_directories.
Proof. unfold _create_directories, self. preserve. Qed.

(** [_create_directories] succeeds exactly when none of the four folders
    is an existing file. *)
Lemma create_directories_ok (me : ConfigManager.t) (c : Config.t) (w : world) :
  ConfigManager.config me = Some c ->
  Forall (fun p => p ∉ dom (files w)) (required_directories c) ->
  fst (_create_directories (me, w)) = inr tt.
Proof.
  intros Hc Hdirs. unfold required_directories in Hdirs.
  apply Forall_cons in Hdirs as [H1 Hdirs].
  apply Forall_cons in Hdirs as [H2 Hdirs].
  apply Forall_cons in Hdirs as [H3 Hdirs].
  apply Forall_cons in Hdirs as [H4 _].
  unfold _create_directories, self, bind, gets, in_world. cbn [fst snd].
  rewrite Hc. rewrite mkdir_ok by assumption. cbn [fst snd].
  rewrite mkdir_ok by assumption. cbn [fst snd].
  rewrite mkdir_ok by assumption. cbn [fst snd].
  rewrite mkdir_ok by assumption. reflexivity.
Qed.

Lemma create_directories_inr (me : ConfigManager.t) (c : Config.t) (w : world)
    (u : unit) (s : ConfigManager.t * world) :
  ConfigManager.config me = Some c ->
  _create_directories (me, w) = (inr u, s) ->
  Forall (fun p => p ∉ dom (files w)) (required_directories c).
Proof.
  intros Hc. unfold _create_directories, self, bind, gets, in_world.
  cbn [fst snd]. rewrite Hc.
  repeat match goal with
         | |- context [mkdir ?p ?w0] =>
           let E := fresh "E" in
           destruct (mkdir p w0) as [[?|[]] ?] eqn:E; [discriminate|];
           apply mkdir_inr in E as [? ->]; cbn [fst snd]
         end.
  intros _.
  unfold required_directories. repeat constructor; assumption.
Qed.

(** [load] in one piece: the validated value, then the directories. *)
Lemma ConfigManager_load_unfold (me : ConfigManager.t) (w : world) :
  ConfigManager_load (me, w) =
  match load_value me w with
  | inl e => (inl e, (me, w))
  | inr c =>
    match _create_directories (with_config c me, w) with
    | (inl e, s) => (inl e, s)
    | (inr _, s) => (inr c, s)
    end
  end.
Proof.
  unfold ConfigManager_load, load_value, secrets_step, self, bind, gets, raise,
    lift, ret, in_world, set_self, modify. cbn [fst snd].
  destruct (path_exists (ConfigManager.config_path me) w); cbn [negb fst snd];
    [|reflexivity].
  pose proof (yaml_safe_load_state (ConfigManager.config_path me) w) as Hs.
  destruct (yaml_safe_load (ConfigManager.config_path me) w) as [[e|d] w1];
    cbn [fst snd] in *; subst w1; [reflexivity|].
  destruct (path_exists (ConfigManager.secrets_path me) w); cbn [fst snd].
  - pose proof (yaml_safe_load_state (ConfigManager.secrets_path me) w) as Hs.
    destruct (yaml_safe_load (ConfigManager.secrets_path me) w) as [[e|sec] w1];
      cbn [fst snd] in *; subst w1; [reflexivity|].
    destruct (merge_secrets sec d) as [e|d']; [reflexivity|].
    destruct (Config_init d') as [e|c]; [reflexivity|].
    fold (with_config c me).
    destruct (_create_directories (with_config c me, w)) as [[e|u] s];
      reflexivity.
  - destruct (Config_init d) as [e|c]; [reflexivity|].
    fold (with_config c me).
    destruct (_create_directories (with_config c me, w)) as [[e|u] s];
      reflexivity.
Qed.

Lemma path_exists_ext (p : string) (w1 w2 : world) :
  files w1 = files w2 -> dirs w1 = dirs w2 ->
  path_exists p w1 = path_exists p w2.
Proof. intros Hf Hd. unfold path_exists. rewrite Hf, Hd. reflexivity. Qed.

Lemma yaml_safe_load_ext (p : string) (w1 w2 : world) :
  files w1 = files w2 -> dirs w1 = dirs w2 ->
  fst (yaml_safe_load p w1) = fst (yaml_safe_load p w2).
Proof.
  intros Hf Hd. unfold yaml_safe_load. rewrite Hf, Hd.
  destruct (files w2 !! p) as [[v|e]|]; try reflexivity.
  case_bool_decide; reflexivity.
Qed.

(** The validated value depends on the text files and on the directories
    only. *)
Lemma load_value_ext (me : ConfigManager.t) (w1 w2 : world) :
  files w1 = files w2 -> dirs w1 = dirs w2 ->
  load_value me w1 = load_value me w2.
Proof.
  intros Hf Hd. unfold load_value, secrets_step.
  rewrite !(path_exists_ext _ w1 w2 Hf Hd).
  rewrite !(yaml_safe_load_ext _ w1 w2 Hf Hd). reflexivity.
Qed.

Lemma load_preserves {X} (f : world -> X) :
  (forall x w, f (set_dirs x w) = f w) ->
  preserves (fun s : ConfigManager.t * world => f (snd s)) ConfigManager_load.
Proof.
  intros Hf [me w]. rewrite ConfigManager_load_unfold.
  destruct (load_value me w) as [e|c]; [reflexivity|].
  pose proof (create_directories_preserves f Hf (with_config c me, w)) as Hp.
  destruct (_create_directories (with_config c me, w)) as [[e|u] s]; exact Hp.
Qed.

Lemma load_config_preserves {X} (f : world -> X) (p : string) :
  (forall x w, f (set_dirs x w) = f w) ->
  (forall x w, f (set__config_manager x w) = f w) ->
  preserves f (load_config p).
Proof.
  intros Hd Hg w. unfold load_config.
  pose proof (load_preserves f Hd (ConfigManager_init p, w)) as Hp.
  destruct (ConfigManager_load (ConfigManager_init p, w)) as [r [me w']].
  cbn [fst snd] in *. rewrite Hg. exact Hp.
Qed.

(** What a successful [load_config] has done. *)
Lemma load_config_inr (p : string) (w w' : world) (c : Config.t) :
  load_config p w = (inr c, w') ->
  load_value (ConfigManager_init p) w = inr c /\
  Forall (fun d => d ∉ dom (files w)) (required_directories c) /\
  _config_manager w' = Some (with_config c (ConfigManager_init p)).
Proof.
  unfold load_config. rewrite ConfigManager_load_unfold.
  destruct (load_value (ConfigManager_init p) w) as [e|c0]; [discriminate|].
  pose proof (create_directories_self (with_config c0 (ConfigManager_init p), w))
    as Hself.
  destruct (_create_directories (with_config c0 (ConfigManager_init p), w))
    as [[e|u] [me w1]] eqn:E; [discriminate|].
  intros [= <- <-]. cbn [fst snd] in Hself. subst me.
  repeat split.
  exact (create_directories_inr (with_config c0 (ConfigManager_init p)) c0 w u _
           eq_refl E).
Qed.

(** A configuration that validates is loaded, provided no required folder
    is an existing file. *)
Lemma load_config_ok (p : string) (w : world) (c : Config.t) :
  load_value (ConfigManager_init p) w = inr c ->
  Forall (fun d => d ∉ dom (files w)) (required_directories c) ->
  fst (load_config p w) = inr c.
Proof.
  intros Hv Hdirs. unfold load_config. rewrite ConfigManager_load_unfold, Hv.
  pose proof (create_directories_ok (with_config c (ConfigManager_init p)) c w
                eq_refl Hdirs) as Hok.
  destruct (_create_directories (with_config c (ConfigManager_init p), w))
    as [[e|u] [me w1]]; cbn in Hok; [discriminate|]. reflexivity.
Qed.

(** A configuration that does not validate is not loaded, and [load_config]
    raises what the validation raised. *)
Lemma load_config_inl (p : string) (w : world) (e : exn) :
  load_value (ConfigManager_init p) w = inl e ->
  fst (load_config p w) = inl e.
Proof.
  intros Hv. unfold load_config. rewrite ConfigManager_load_unfold, Hv.
  reflexivity.
Qed.

End LoaderFacts.

(** ** The global getters *)

Section Getters.
Context `{Pydantic}.



End Getters.


(** ** The API key and the secrets file *)

Lemma vap_inr {A B} (f : V (A -> B)) (x : V A) (y : B) :
  f <*> x = inr y -> exists g a, f = inr g /\ x = inr a /\ y = g a.
Proof.
  destruct f as [e1|g], x as [e2|a]; cbn; try discriminate.
  intros [= <-]. eauto.
Qed.

Ltac vap_inv H :=
  repeat (let g := fresh "g" in
          let a := fresh "a" in
          let Hx := fresh "Hx" in
          apply vap_inr in H as (g & a & H & Hx & ->)).

Lemma assoc_set_eq (k : string) (v : pyval) (d : list (string * pyval)) :
  assoc k (assoc_set k v d) = Some v.
Proof.
  induction d as [|[k' v'] d IH]; cbn.
  - rewrite String.eqb_refl. reflexivity.
  - destruct (String.eqb k' k) eqn:E; cbn.
    + rewrite String.eqb_refl. reflexivity.
    + rewrite E. exact IH.
Qed.

Lemma assoc_Some_nonempty (k : string) (d : list (string * pyval)) (v : pyval) :
  assoc k d = Some v -> truthy (PDict d) = true.
Proof. destruct d; [discriminate | reflexivity]. Qed.

(** The merge statements leave the key where validation reads it. *)
Lemma set_tmdb_api_key_entry (key cd cd' : pyval) :
  set_tmdb_api_key key cd = inr cd' -> api_key_entry cd' = Some key.
Proof.
  unfold set_tmdb_api_key.
  destruct (py_contains "metadata" cd) as [e|has_metadata]; [discriminate|].
  destruct (if has_metadata then _ else _) as [e|c1]; [discriminate|].
  destruct (py_getitem c1 "metadata") as [e|m]; [discriminate|].
  destruct (py_contains "tmdb" m) as [e|has_tmdb]; [discriminate|].
  destruct (if has_tmdb then _ else _) as [e|m1]; [discriminate|].
  destruct (py_getitem m1 "tmdb") as [e|t]; [discriminate|].
  destruct t as [| | | | | |t]; try discriminate.
  destruct m1 as [| | | | | |m1]; try discriminate.
  destruct c1 as [| | | | | |c1]; try discriminate.
  cbn. intros [= <-]. cbn. rewrite !assoc_set_eq. reflexivity.
Qed.

(** Without a secret the merge leaves the main [config_dict] as it is. *)
Lemma merge_secrets_absent (secrets cd cd' : pyval) :
  secret_absent_or_empty secrets ->
  merge_secrets secrets cd = inr cd' -> cd' = cd.
Proof.
  unfold secret_absent_or_empty, merge_secrets, secret_of.
  intros Habsent.
  destruct secrets as [|b|n|f|s|l|d]; cbn [truthy].
  - cbn. congruence.
  - destruct b; cbn; congruence.
  - destruct (n =? 0); cbn; congruence.
  - destruct (PrimFloat.is_zero f); cbn; congruence.
  - destruct (String.eqb s ""); cbn [negb py_contains]; [cbn; congruence|].
    destruct (str_contains "tmdb_api_key" s); cbn; congruence.
  - destruct l as [|x l]; [cbn; congruence|]. cbn [py_contains].
    destruct (existsb _ _); cbn; congruence.
  - destruct d as [|x d]; [cbn; congruence|]. cbn [py_contains].
    destruct Habsent as [Hnone|(key & Hkey & Hfalsy)].
    + rewrite Hnone. rewrite bool_decide_eq_false_2 by (intros [? ?]; discriminate).
      congruence.
    + rewrite Hkey. rewrite bool_decide_eq_true_2 by eauto.
      cbn [py_getitem]. rewrite Hkey, Hfalsy. congruence.
Qed.

(** With a secret the merge is the three statements. *)
Lemma merge_secrets_present (secrets key cd : pyval) :
  secret_of secrets = Some key -> truthy key = true ->
  merge_secrets secrets cd = set_tmdb_api_key key cd.
Proof.
  unfold secret_of, merge_secrets. destruct secrets; try discriminate.
  intros Hkey Htruthy. rewrite (assoc_Some_nonempty _ _ _ Hkey).
  cbn [py_contains py_getitem]. rewrite Hkey.
  rewrite bool_decide_eq_true_2 by eauto. rewrite Htruthy. reflexivity.
Qed.

Section ApiKey.
Context `{Pydantic}.

(** Validation takes the API key from that entry. *)
Lemma validated_api_key (cd v : pyval) (c : Config.t) :
  Config_init cd = inr c -> api_key_entry cd = Some v ->
  v = PStr (tmdb_api_key c).
Proof.
  unfold Config_init, api_key_entry, tmdb_api_key.
  destruct cd as [| | | | | |d]; try discriminate.
  destruct (v_Config d) as [errs|c0] eqn:Hv; [discriminate|].
  intros [= ->].
  destruct (assoc "metadata" d) as [[| | | | | |m]|] eqn:Hm; try discriminate.
  destruct (assoc "tmdb" m) as [[| | | | | |t]|] eqn:Ht; try discriminate.
  intros Hkey.
  unfold v_Config in Hv. vap_inv Hv. injection Hv as <-. cbn.
  clear - Hm Ht Hkey Hx3.
  unfold field in Hx3. rewrite Hm in Hx3. cbn in Hx3.
  unfold v_MetadataConfig in Hx3. vap_inv Hx3. injection Hx3 as <-. cbn.
  unfold field in Hx. rewrite Ht in Hx. cbn in Hx.
  unfold v_TMDBConfig in Hx. vap_inv Hx. injection Hx as <-. cbn.
  unfold field in Hx1. rewrite Hkey in Hx1.
  destruct v; try discriminate. cbn in Hx1. congruence.
Qed.

Lemma load_value_inr (me : ConfigManager.t) (w : world) (c : Config.t) :
  load_value me w = inr c ->
  exists d d',
    files w !! ConfigManager.config_path me = Some (Yaml d) /\
    secrets_step (ConfigManager.secrets_path me) d w = inr d' /\
    Config_init d' = inr c.
Proof.
  unfold load_value.
  destruct (path_exists _ w); cbn [negb]; [|discriminate].
  unfold yaml_safe_load at 1.
  destruct (files w !! ConfigManager.config_path me) as [[d|e]|];
    cbn [fst]; [| discriminate | case_bool_decide; discriminate].
  destruct (secrets_step _ d w) as [e|d'] eqn:Hs; [discriminate|].
  intros Hc. exists d, d'. auto.
Qed.

Lemma secrets_step_read (sp : string) (d d' : pyval) (w : world) (secrets : pyval) :
  files w !! sp = Some (Yaml secrets) ->
  secrets_step sp d w = merge_secrets secrets d.
Proof.
  intros Hsec. unfold secrets_step, path_exists, yaml_safe_load.
  rewrite bool_decide_eq_true_2 by (apply elem_of_dom; eauto).
  rewrite Hsec. reflexivity.
Qed.

(** C6.  For every load that returns a configuration: if the secrets file
    provides a value for [tmdb_api_key] that is present and non-empty, the
    API key of the loaded configuration is that value, whatever the main
    file held; if there is no secrets file, or it has no such value, or an
    empty one, the loaded configuration is exactly what the main file
    validates to, so its API key is the main file's. *)
Theorem secret_api_key_replaces_config_value
    (me : ConfigManager.t) (w : world) (c : Config.t)
    (s' : ConfigManager.t * world) :
  ConfigManager_load (me, w) = (inr c, s') ->
  exists config_dict,
    files w !! ConfigManager.config_path me = Some (Yaml config_dict) /\
    (forall secrets key,
       files w !! ConfigManager.secrets_path me = Some (Yaml secrets) ->
       secret_of secrets = Some key -> truthy key = true ->
       key = PStr (tmdb_api_key c)) /\
    ((path_exists (ConfigManager.secrets_path me) w = false \/
      exists secrets,
        files w !! ConfigManager.secrets_path me = Some (Yaml secrets) /\
        secret_absent_or_empty secrets) ->
     Config_init config_dict = inr c /\
     forall v, api_key_entry config_dict = Some v -> v = PStr (tmdb_api_key c)).
Proof.
  rewrite ConfigManager_load_unfold.
  destruct (load_value me w) as [e|c0] eqn:Hv; [discriminate|].
  destruct (_create_directories (with_config c0 me, w)) as [[e|u] s0];
    [discriminate|].
  intros [= -> _].
  apply load_value_inr in Hv as (d & d' & Hd & Hstep & Hc).
  exists d. split; [exact Hd|]. split.
  - intros secrets key Hsec Hkey Htruthy.
    rewrite (secrets_step_read _ _ d' _ _ Hsec) in Hstep.
    rewrite (merge_secrets_present _ _ _ Hkey Htruthy) in Hstep.
    apply set_tmdb_api_key_entry in Hstep.
    exact (validated_api_key _ _ _ Hc Hstep).
  - intros Habsent.
    assert (d' = d) as ->.
    { destruct Habsent as [Hnone|(secrets & Hsec & Habsent)].
      - unfold secrets_step in Hstep. rewrite Hnone in Hstep. congruence.
      - rewrite (secrets_step_read _ _ d _ _ Hsec) in Hstep.
        exact (merge_secrets_absent _ _ _ Habsent Hstep). }
    split; [exact Hc|]. intros v Hentry.
    exact (validated_api_key _ _ _ Hc Hentry).
Qed.

End ApiKey.

Lemma secret_api_key_replaces_config_value_witness :
  api_key_entry sample_config = Some (PStr "from-config") /\
  exists c s',
    @ConfigManager_load exact_inputs
      (ConfigManager_init "config/config.yaml",
       with_file "config/secrets.yaml" (secrets_file "from-secrets") sample_world)
    = (inr c, s') /\
    PStr "from-secrets" = PStr (tmdb_api_key c).
Proof.
  split; [reflexivity|].
  destruct (@ConfigManager_load exact_inputs
              (ConfigManager_init "config/config.yaml",
               with_file "config/secrets.yaml" (secrets_file "from-secrets")
                         sample_world)) as [[e|c] s'] eqn:E;
    [vm_compute in E; discriminate|].
  exists c, s'. split; [reflexivity|].
  destruct (@secret_api_key_replaces_config_value exact_inputs _ _ _ _ E)
    as (d & _ & Hsecret & _).
  apply (Hsecret (PDict [("tmdb_api_key", PStr "from-secrets")])); reflexivity.
Defined.

(** ** Where the secrets are read from *)

Section SecretsPath.
Context `{Pydantic}.

(** C10.  Whatever [config_path] a [ConfigManager] is given, its secrets
    path is [config/secrets.yaml], relative to the working directory; a load
    that returns a configuration has read the main file at [config_path] and
    merged the secrets found at that fixed path.  Two working directories
    that hold the same main configuration file and different secrets files
    give different API keys. *)
Theorem secrets_path_is_fixed :
  (forall p, ConfigManager.secrets_path (ConfigManager_init p)
             = "config/secrets.yaml")
  /\
  (forall p w c w', load_config p w = (inr c, w') ->
     exists d d',
       files w !! p = Some (Yaml d) /\
       secrets_step "config/secrets.yaml" d w = inr d' /\
       Config_init d' = inr c)
  /\
  (files (world_with_secret "key-one") !! "/etc/media-organizer/config.yaml"
   = files (world_with_secret "key-two") !! "/etc/media-organizer/config.yaml"
   /\
   loaded_api_key (fst (load_config "/etc/media-organizer/config.yaml"
                                    (world_with_secret "key-one")))
   = Some "key-one"
   /\
   loaded_api_key (fst (load_config "/etc/media-organizer/config.yaml"
                                    (world_with_secret "key-two")))
   = Some "key-two").
Proof.
  split; [reflexivity|]. split.
  - intros p w c w' Hload.
    apply load_config_inr in Hload as (Hv & _ & _).
    apply load_value_inr in Hv. exact Hv.
  - split; [reflexivity|]. split; vm_compute; reflexivity.
Qed.

End SecretsPath.

Lemma secrets_path_is_fixed_witness :
  exists d d',
    files (world_with_secret "key-one") !! "/etc/media-organizer/config.yaml"
    = Some (Yaml d) /\
    secrets_step "config/secrets.yaml" d (world_with_secret "key-one") = inr d' /\
    @Config_init exact_inputs d'
    = fst (@load_config exact_inputs "/etc/media-organizer/config.yaml"
                        (world_with_secret "key-one")).
Proof.
  destruct (@load_config exact_inputs "/etc/media-organizer/config.yaml"
              (world_with_secret "key-one")) as [[e|c] w'] eqn:E;
    [vm_compute in E; discriminate|].
  destruct (@secrets_path_is_fixed exact_inputs) as (_ & Hread & _).
  destruct (Hread _ _ _ _ E) as (d & d' & Hd & Hstep & Hc).
  exists d, d'. auto.
Defined.

(** ** The exit status and what is printed *)

Lemma connect_state (p : string) (w : world) : snd (connect p w) = w.
Proof.
  unfold connect. repeat (case_match; try reflexivity).
Qed.

Lemma connect_preserves {X} (f : world -> X) (p : string) :
  preserves f (connect p).
Proof. intros w. rewrite connect_state. reflexivity. Qed.

Lemma commit_preserves {X} (f : world -> X) (p : string) (db : database_file) :
  (forall x w, f (set_sqlite x w) = f w) -> preserves f (commit p db).
Proof.
  intros Hf w. unfold commit. destruct (in_memory p); [reflexivity | apply Hf].
Qed.

Lemma logger_add_preserves {X} (f : world -> X) (h : handler) :
  (forall x w, f (set_handlers x w) = f w) -> preserves f (logger_add h).
Proof.
  intros Hf w. unfold logger_add. case_bool_decide; [apply Hf | reflexivity].
Qed.

(** Nothing but [main]'s handlers writes to the standard error. *)
Ltac preserve_stderr :=
  repeat first
    [ apply connect_preserves
    | apply mkdir_preserves; intros; reflexivity
    | apply print_preserves; intros; reflexivity
    | apply log_preserves; intros; reflexivity
    | apply commit_preserves; intros; reflexivity
    | apply logger_add_preserves; intros; reflexivity
    | apply load_config_preserves; intros; reflexivity
    | progress preserve ].

Section ExitStatus.
Context `{Pydantic}.

Lemma main_try_stderr (a : args) : preserves stderr (main_try a).
Proof.
  unfold main_try, MediaOrganizer_init, MediaOrganizer_run, shutdown,
    _validate_paths, init_database, create_tables, init_logger,
    LoggerManager_init, _setup_console_handler, _setup_file_handlers,
    LoggerManager_get_logger.
  preserve_stderr.
Qed.

Lemma main_try_returns_zero (a : args) (w w' : world) (code : Z) :
  main_try a w = (inr code, w') -> code = 0.
Proof.
  unfold main_try. destruct (init_db a); intros Hrun.
  - repeat (apply bind_inr in Hrun as (? & ? & _ & Hrun)).
    injection Hrun as <-. reflexivity.
  - repeat (apply bind_inr in Hrun as (? & ? & _ & Hrun)).
    injection Hrun as <-. reflexivity.
Qed.

(** A configuration that does not load stops the run with the exception of
    the loader, on both paths of [main]. *)
Lemma main_try_load_failure (a : args) (w : world) (e : exn) :
  load_value (ConfigManager_init (config a)) w = inl e ->
  fst (main_try a w) = inl e.
Proof.
  intros Hv. unfold main_try. destruct (init_db a).
  - unfold bind at 1. cbn [print modify].
    unfold bind at 1.
    match goal with
    | |- context [load_config ?p ?w1] =>
      pose proof (load_config_inl p w1 e) as Hl;
      rewrite (load_value_ext _ w1 w eq_refl eq_refl) in Hl;
      specialize (Hl Hv);
      destruct (load_config p w1) as [[e'|c] w2]
    end; cbn [fst] in *; congruence.
  - unfold MediaOrganizer_init. unfold bind at 1. unfold bind at 1.
    pose proof (load_config_inl (config a) w e Hv) as Hl.
    destruct (load_config (config a) w) as [[e'|c] w2]; cbn [fst] in *;
      congruence.
Qed.

End ExitStatus.

(** *** Counting the lines of a message *)


Lemma append_nil (s : string) : "" +:+ s = s.
Proof. reflexivity. Qed.







(** *** A validation error reports at least one error *)






Section Reported.
Context `{Pydantic}.






















Lemma main_outcome (a : args) (w : world) :
  exists code w',
    main a w = (inr code, w') /\
    match fst (main_try a w) with
    | inr _ => code = 0 /\ stderr w' = stderr w
    | inl e => code = 1 /\ stderr w' = (stderr w ++ [report e])%list
    end.
Proof.
  pose proof (main_try_stderr a w) as Hstderr.
  pose proof (main_try_returns_zero a w) as Hzero.
  unfold main, catch.
  destruct (main_try a w) as [[e|code] w1] eqn:Hrun; cbn [fst snd] in *.
  - unfold report.
    destruct (is_FileNotFoundError e); [|destruct (is_ValueError e)];
      (eexists 1, _; split; [reflexivity|]; split; [reflexivity|]);
      cbn [stderr set_stderr snd]; rewrite Hstderr; reflexivity.
  - rewrite (Hzero w1 code eq_refl). eauto.
Qed.





End Reported.



(** ** Creating the schema *)


Lemma create_if_missing_keeps {A} (t : option (list A)) (rows : list A) :
  t = Some rows -> create_if_missing t = Some rows.
Proof. intros ->. reflexivity. Qed.



Section InitDb.
Context `{Pydantic}.





End InitDb.




(** * Further properties *)

(** ** The constraints of [media_files] *)

(** What a successful insert has checked and stored. *)
Lemma add_MediaFile_inr (now : Z) (a : MediaFile_kwargs.t) (db db' : database_file)
    (i : Z) :
  add_MediaFile now a db = (inr i, db') ->
  exists rows p fn sz h mt,
    media_files db = Some rows /\
    MediaFile_kwargs.original_path a = Some p /\
    MediaFile_kwargs.filename a = Some fn /\
    MediaFile_kwargs.file_size a = Some sz /\
    MediaFile_kwargs.file_hash a = Some h /\
    MediaFile_kwargs.media_type a = Some mt /\
    i = default (next_id (MediaFile.id <$> rows)) (MediaFile_kwargs.id a) /\
    (i ∉ MediaFile.id <$> rows) /\
    (p ∉ MediaFile.original_path <$> rows) /\
    (h ∉ MediaFile.file_hash <$> rows) /\
    db' = set_media_files (rows ++ [MediaFile_new_row now i p fn sz h mt a])%list db.
Proof.
  unfold add_MediaFile.
  destruct (media_files db) as [rows|]; [|discriminate].
  destruct (MediaFile_kwargs.original_path a) as [p|]; [|discriminate].
  destruct (MediaFile_kwargs.filename a) as [fn|]; [|discriminate].
  destruct (MediaFile_kwargs.file_size a) as [sz|]; [|discriminate].
  destruct (MediaFile_kwargs.file_hash a) as [h|]; [|discriminate].
  destruct (MediaFile_kwargs.media_type a) as [mt|]; [|discriminate].
  cbv zeta.
  case_bool_decide as Hi; [discriminate|].
  case_bool_decide as Hp; [discriminate|].
  case_bool_decide as Hh; [discriminate|].
  cbn [orb]. intros [= <- <-].
  exists rows, p, fn, sz, h, mt. repeat split; assumption.
Qed.

(** X1.  The five columns declared [nullable=False] are required: an insert
    that leaves any of them out fails with the NOT NULL integrity error, and
    the file is left as it was. *)
Theorem add_MediaFile_requires_the_five_columns
    (now : Z) (a : MediaFile_kwargs.t) (db : database_file)
    (rows : list MediaFile.row) :
  media_files db = Some rows ->
  MediaFile_kwargs.original_path a = None \/
  MediaFile_kwargs.filename a = None \/
  MediaFile_kwargs.file_size a = None \/
  MediaFile_kwargs.file_hash a = None \/
  MediaFile_kwargs.media_type a = None ->
  add_MediaFile now a db = (inl (IntegrityError NotNullFailed), db).
Proof.
  intros Hrows Hmissing. unfold add_MediaFile. rewrite Hrows.
  destruct (MediaFile_kwargs.original_path a), (MediaFile_kwargs.filename a),
    (MediaFile_kwargs.file_size a), (MediaFile_kwargs.file_hash a),
    (MediaFile_kwargs.media_type a); try reflexivity.
  destruct Hmissing as [?|[?|[?|[?|?]]]]; discriminate.
Qed.

Lemma add_MediaFile_requires_the_five_columns_witness :
  add_MediaFile 3000
    (MediaFile_kwargs.Make None (Some "/in/new.mp3") None (Some 10)
       (Some "0a1b") (Some AUDIO) Unset Unset Unset Unset None None None Unset
       None Unset)
    catalog
  = (inl (IntegrityError NotNullFailed), catalog).
Proof.
  apply (add_MediaFile_requires_the_five_columns 3000 _ catalog [song]).
  - reflexivity.
  - right. left. reflexivity.
Defined.

(** X2.  [original_path] is unique, and so is the primary key: an insert
    whose path is already stored, or whose explicit key is, fails with the
    UNIQUE integrity error whatever its hash, and stores nothing. *)
Theorem add_MediaFile_path_or_key_conflict
    (now : Z) (a : MediaFile_kwargs.t) (db : database_file)
    (rows : list MediaFile.row) (p h fn : string) (sz : Z) (mt : MediaType) :
  media_files db = Some rows ->
  MediaFile_kwargs.original_path a = Some p ->
  MediaFile_kwargs.file_hash a = Some h ->
  MediaFile_kwargs.filename a = Some fn ->
  MediaFile_kwargs.file_size a = Some sz ->
  MediaFile_kwargs.media_type a = Some mt ->
  p ∈ MediaFile.original_path <$> rows \/
  (exists k, MediaFile_kwargs.id a = Some k /\ k ∈ MediaFile.id <$> rows) ->
  add_MediaFile now a db = (inl (IntegrityError UniqueFailed), db).
Proof.
  intros Hrows Hp Hh Hfn Hsz Hmt Hstored.
  unfold add_MediaFile. rewrite Hrows, Hp, Hh, Hfn, Hsz, Hmt. cbv zeta.
  destruct Hstored as [Hpath|(k & Hk & Hkey)].
  - rewrite (bool_decide_eq_true_2 _ Hpath). rewrite orb_true_r. reflexivity.
  - rewrite Hk. cbn [default from_option].
    rewrite (bool_decide_eq_true_2 _ Hkey). reflexivity.
Qed.

Lemma add_MediaFile_path_or_key_conflict_witness :
  add_MediaFile 3000
    (new_MediaFile "/in/song.mp3" "song.mp3" 7 "a-new-hash" AUDIO) catalog
  = (inl (IntegrityError UniqueFailed), catalog).
Proof.
  apply (add_MediaFile_path_or_key_conflict 3000 _ catalog [song]
           "/in/song.mp3" "a-new-hash" "song.mp3" 7 AUDIO);
    try reflexivity.
  left. apply list_elem_of_singleton. reflexivity.
Defined.

(** X3.  The defaults of the columns.  In the row a successful insert
    stores, a column left unset has its declared default ([status] pending,
    [confidence_score] 0.0, [is_on_usb] false, [retry_count] 0), while an
    explicit NULL is stored as NULL: the status of a row can be none of the
    enumerated values. *)
Theorem add_MediaFile_applies_defaults
    (now : Z) (a : MediaFile_kwargs.t) (db db' : database_file) (i : Z) :
  add_MediaFile now a db = (inr i, db') ->
  exists r,
    fst (get_MediaFile i db') = inr (Some r) /\
    MediaFile.id r = i /\
    (MediaFile_kwargs.status a = Unset -> MediaFile.status r = Some PENDING) /\
    (MediaFile_kwargs.status a = SqlNull -> MediaFile.status r = None) /\
    (MediaFile_kwargs.confidence_score a = Unset ->
     MediaFile.confidence_score r = Some 0%float) /\
    (MediaFile_kwargs.is_on_usb a = Unset -> MediaFile.is_on_usb r = Some false) /\
    (MediaFile_kwargs.retry_count a = Unset -> MediaFile.retry_count r = Some 0) /\
    MediaFile.output_path r = MediaFile_kwargs.output_path a /\
    MediaFile.processed_at r = MediaFile_kwargs.processed_at a /\
    MediaFile.error_message r = MediaFile_kwargs.error_message a.
Proof.
  intros Hadd.
  apply add_MediaFile_inr in Hadd
    as (rows & p & fn & sz & h & mt & Hrows & _ & _ & _ & _ & _ & _ & Hi & _ & _ & ->).
  exists (MediaFile_new_row now i p fn sz h mt a).
  unfold get_MediaFile. cbn [set_media_files media_files fst].
  fold (has_id i). rewrite find_has_id_new by (assumption || reflexivity).
  split; [reflexivity|]. split; [reflexivity|].
  cbn. repeat split; intros ->; reflexivity.
Qed.

Lemma add_MediaFile_applies_defaults_witness :
  exists r,
    fst (get_MediaFile 2
           (snd (add_MediaFile 3000
                   (new_MediaFile "/in/other.mp3" "other.mp3" 1024 "def456" AUDIO)
                   catalog))) = inr (Some r) /\
    MediaFile.status r = Some PENDING /\
    MediaFile.confidence_score r = Some 0%float.
Proof.
  destruct (add_MediaFile_applies_defaults 3000
              (new_MediaFile "/in/other.mp3" "other.mp3" 1024 "def456" AUDIO)
              catalog _ 2 eq_refl)
    as (r & Hget & _ & Hstatus & _ & Hscore & _).
  exists r. split; [exact Hget|]. split; [apply Hstatus | apply Hscore]; reflexivity.
Defined.

(** ** The uniqueness constraints as an invariant *)

Lemma update_row_projection {A} (proj : MediaFile.row -> A) (i : Z)
    (f : MediaFile.row -> MediaFile.row) (rows : list MediaFile.row) :
  (forall r, proj (f r) = proj r) ->
  proj <$> update_row i f rows = proj <$> rows.
Proof.
  intros Hf. unfold update_row. induction rows as [|r rows IH]; [reflexivity|].
  cbn [fmap list_fmap] in *. f_equal; [|exact IH].
  case_bool_decide; [apply Hf | reflexivity].
Qed.

Lemma NoDup_fmap_filter {A} (proj : MediaFile.row -> A)
    (P : MediaFile.row -> Prop) `{forall r, Decision (P r)}
    (rows : list MediaFile.row) :
  NoDup (proj <$> rows) -> NoDup (proj <$> filter P rows).
Proof.
  intros Hrows. apply (sublist_NoDup _ (proj <$> rows)); [exact Hrows|].
  apply fmap_sublist, sublist_filter.
Qed.

Lemma NoDup_snoc {A} (l : list A) (x : A) :
  NoDup l -> x ∉ l -> NoDup (l ++ [x])%list.
Proof.
  intros Hl Hx. apply NoDup_app. split; [exact Hl|]. split.
  - intros y Hy Hin. apply list_elem_of_singleton in Hin as ->. contradiction.
  - apply NoDup_singleton.
Qed.

(** X4.  The three uniqueness constraints of [media_files] are an invariant
    of the session operations: in a file where the keys, the paths and the
    hashes are pairwise different they still are after an insert, a change
    of status, a change of confidence score or a delete, whether the
    operation succeeded or failed. *)
Theorem session_operations_keep_keys_unique
    (now i : Z) (a : MediaFile_kwargs.t) (s : ProcessingStatus) (v : float)
    (db : database_file) :
  unique_keys db ->
  unique_keys (snd (add_MediaFile now a db)) /\
  unique_keys (snd (set_status now i s db)) /\
  unique_keys (snd (set_confidence_score now i v db)) /\
  unique_keys (snd (delete_MediaFile now i db)).
Proof.
  intros Hunique. repeat split.
  - destruct (add_MediaFile now a db) as [[e|k] db'] eqn:Hadd; cbn [snd].
    + assert (db' = db) as ->; [|exact Hunique].
      revert Hadd. unfold add_MediaFile.
      repeat case_match; intros [= _ <-]; reflexivity.
    + apply add_MediaFile_inr in Hadd
        as (rows & p & fn & sz & h & mt & Hrows & _ & _ & _ & _ & _ & _
            & Hi & Hp & Hh & ->).
      unfold unique_keys in *. rewrite Hrows in Hunique.
      destruct Hunique as (Hids & Hpaths & Hhashes).
      cbn [set_media_files media_files]. rewrite !fmap_app.
      repeat split; apply NoDup_snoc; assumption.
  - unfold set_status.
    destruct (media_files db) as [rows|] eqn:Hrows; [|exact Hunique].
    destruct (find _ rows); [|exact Hunique].
    case_bool_decide; [exact Hunique|].
    unfold unique_keys in *. rewrite Hrows in Hunique.
    cbn [snd set_media_files media_files].
    rewrite !update_row_projection by reflexivity. exact Hunique.
  - unfold set_confidence_score.
    destruct (media_files db) as [rows|] eqn:Hrows; [|exact Hunique].
    destruct (find _ rows); [|exact Hunique].
    destruct (float_attr_eq _ v); [exact Hunique|].
    unfold unique_keys in *. rewrite Hrows in Hunique.
    cbn [snd set_media_files media_files].
    rewrite !update_row_projection by reflexivity. exact Hunique.
  - unfold delete_MediaFile.
    destruct (media_files db) as [rows|] eqn:Hrows; [|repeat case_match; exact Hunique].
    destruct (fingerprints db), (media_metadata db), (ml_features db),
      (review_queue db), (processing_logs db); try exact Hunique.
    destruct (find _ rows); [|exact Hunique].
    unfold unique_keys in *. rewrite Hrows in Hunique.
    destruct Hunique as (Hids & Hpaths & Hhashes).
    cbn [snd media_files].
    repeat split; apply NoDup_fmap_filter; assumption.
Qed.

Lemma session_operations_keep_keys_unique_witness :
  unique_keys
    (snd (add_MediaFile 3000
            (new_MediaFile "/in/other.mp3" "other.mp3" 1024 "def456" AUDIO)
            catalog)).
Proof.
  apply (session_operations_keep_keys_unique 3000 1 _ PENDING 0%float catalog).
  cbn. repeat split; apply NoDup_singleton.
Defined.

(** ** One row at a time *)

Lemma find_update_row_ne (i j : Z) (f : MediaFile.row -> MediaFile.row)
    (rows : list MediaFile.row) :
  j <> i -> (forall r, MediaFile.id (f r) = MediaFile.id r) ->
  find (has_id j) (update_row i f rows) = find (has_id j) rows.
Proof.
  intros Hne Hid. unfold update_row, has_id.
  induction rows as [|r rows IH]; [reflexivity|].
  cbn [fmap list_fmap find].
  destruct (bool_decide (MediaFile.id r = i)) eqn:Ei.
  - apply bool_decide_eq_true_1 in Ei.
    rewrite Hid. rewrite !bool_decide_eq_false_2 by congruence. exact IH.
  - destruct (bool_decide (MediaFile.id r = j)); [reflexivity | exact IH].
Qed.

(** X5.  A change of status or of confidence score touches one row of one
    table: every other MediaFile reads back as before and the other tables
    are as before; on a key that is not stored the change raises and the
    file is left as it was. *)
Theorem updates_touch_one_row
    (now i j : Z) (s : ProcessingStatus) (v : float) (db : database_file) :
  j <> i ->
  (fst (get_MediaFile j (snd (set_status now i s db))) = fst (get_MediaFile j db) /\
   other_tables (snd (set_status now i s db)) = other_tables db) /\
  (fst (get_MediaFile j (snd (set_confidence_score now i v db)))
   = fst (get_MediaFile j db) /\
   other_tables (snd (set_confidence_score now i v db)) = other_tables db) /\
  (fst (get_MediaFile i db) = inr None ->
   set_status now i s db = (inl (none_has_no_attribute "status"), db) /\
   set_confidence_score now i v db
   = (inl (none_has_no_attribute "confidence_score"), db)).
Proof.
  intros Hne. unfold get_MediaFile, set_status, set_confidence_score.
  destruct (media_files db) as [rows|] eqn:Hrows.
  - fold (has_id i) (has_id j).
    destruct (find (has_id i) rows) as [r|] eqn:Hfind.
    + split; [|split; [|discriminate]].
      * case_bool_decide; cbn [snd fst]; [rewrite Hrows; auto|].
        cbn [set_media_files media_files]. fold (has_id j).
        rewrite find_update_row_ne by (assumption || reflexivity). auto.
      * destruct (float_attr_eq _ v); cbn [snd fst]; [rewrite Hrows; auto|].
        cbn [set_media_files media_files]. fold (has_id j).
        rewrite find_update_row_ne by (assumption || reflexivity). auto.
    + cbn [snd fst]. rewrite Hrows. auto.
  - cbn [snd fst]. rewrite Hrows. repeat split; discriminate.
Qed.

Lemma updates_touch_one_row_witness :
  fst (get_MediaFile 2 (snd (set_status 3000 1 FAILED two_songs)))
  = inr (Some other_song).
Proof.
  destruct (updates_touch_one_row 3000 1 2 FAILED 0%float two_songs)
    as ((Hget & _) & _); [discriminate|].
  rewrite Hget. reflexivity.
Defined.

(** ** MediaMetadata is one-to-one *)



(** ** Insert, then delete *)

Lemma filter_new_row (i : Z) (rows : list MediaFile.row) (r : MediaFile.row) :
  i ∉ MediaFile.id <$> rows -> MediaFile.id r = i ->
  filter (fun r => MediaFile.id r <> i) (rows ++ [r])%list = rows.
Proof.
  intros Hfresh Hr. rewrite filter_app.
  rewrite filter_cons_False by (intros Hne; apply Hne; exact Hr).
  rewrite filter_nil, app_nil_r.
  induction rows as [|r0 rows IH]; [reflexivity|].
  rewrite filter_cons_True.
  - f_equal. apply IH. intros Hin. apply Hfresh. cbn. right. exact Hin.
  - intros Heq. apply Hfresh. cbn. rewrite Heq. left.
Qed.

(** X7.  Deleting the MediaFile that was just inserted succeeds and leaves
    the [media_files] table exactly as it was before the insert. *)
Theorem delete_undoes_add
    (now now' : Z) (a : MediaFile_kwargs.t) (db db1 : database_file) (i : Z) :
  add_MediaFile now a db = (inr i, db1) ->
  is_Some (fingerprints db) -> is_Some (media_metadata db) ->
  is_Some (ml_features db) -> is_Some (review_queue db) ->
  is_Some (processing_logs db) ->
  exists db2,
    delete_MediaFile now' i db1 = (inr tt, db2) /\
    media_files db2 = media_files db.
Proof.
  intros Hadd [fps Hfps] [mds Hmds] [fts Hfts] [rvs Hrvs] [logs Hlogs].
  apply add_MediaFile_inr in Hadd
    as (rows & p & fn & sz & h & mt & Hrows & _ & _ & _ & _ & _ & _ & Hi & _ & _ & ->).
  unfold delete_MediaFile.
  cbn [set_media_files media_files fingerprints media_metadata ml_features
       review_queue processing_logs].
  rewrite Hfps, Hmds, Hfts, Hrvs, Hlogs.
  fold (has_id i). rewrite find_has_id_new by (assumption || reflexivity).
  eexists. split; [reflexivity|].
  cbn [media_files]. rewrite filter_new_row by (assumption || reflexivity).
  symmetry. exact Hrows.
Qed.

Lemma delete_undoes_add_witness :
  exists db2,
    delete_MediaFile 4000 2
      (snd (add_MediaFile 3000
              (new_MediaFile "/in/other.mp3" "other.mp3" 1024 "def456" AUDIO)
              catalog)) = (inr tt, db2) /\
    media_files db2 = media_files catalog.
Proof.
  apply (delete_undoes_add 3000 4000
           (new_MediaFile "/in/other.mp3" "other.mp3" 1024 "def456" AUDIO)
           catalog); try reflexivity; eexists; reflexivity.
Defined.

(** ** Dropping and creating the tables *)




(** ** What a validated configuration satisfies *)

Lemma field_inr {A} (l k : string) (d : option A)
    (validate : string -> pyval -> V A) (items : list (string * pyval)) (a : A) :
  field l k d validate items = inr a ->
  (assoc k items = None /\ d = Some a) \/
  (exists v, assoc k items = Some v /\ validate (l +:+ k) v = inr a).
Proof.
  unfold field. destruct (assoc k items) as [v|].
  - intros Hv. right. eauto.
  - destruct d as [a0|]; [|discriminate]. intros [= ->]. left. auto.
Qed.

Lemma v_model_inr {A} (cls : string)
    (validate : string -> list (string * pyval) -> V A) (l : string) (v : pyval)
    (a : A) :
  v_model cls validate l v = inr a ->
  exists items, v = PDict items /\ validate (l +:+ ".") items = inr a.
Proof. destruct v; try discriminate. cbn. eauto. Qed.

Lemma validate_paths_inr (v s : string) :
  validate_paths v = inr s -> s = v /\ configured v.
Proof.
  unfold validate_paths, configured.
  destruct (String.eqb v "") eqn:E1; [discriminate|].
  destruct (String.eqb v "/path/to/input") eqn:E2; [discriminate|].
  destruct (String.eqb v "/path/to/output") eqn:E3; [discriminate|].
  cbn. intros [= <-].
  apply String.eqb_neq in E1, E2, E3. auto.
Qed.

Lemma validate_paths_ok (v : string) : configured v -> validate_paths v = inr v.
Proof.
  intros (H1 & H2 & H3). unfold validate_paths.
  apply String.eqb_neq in H1, H2, H3. rewrite H1, H2, H3. reflexivity.
Qed.

Lemma field_sat {A} (P : A -> Prop) (l k : string) (d : option A)
    (validate : string -> pyval -> V A) (items : list (string * pyval)) (a : A) :
  (forall a0, d = Some a0 -> P a0) ->
  (forall l' v a', validate l' v = inr a' -> P a') ->
  field l k d validate items = inr a -> P a.
Proof.
  intros Hd Hv Hf. apply field_inr in Hf as [[_ Hf]|(v & _ & Hf)]; eauto.
Qed.

Lemma in_range_default (lo hi x : float) :
  PrimFloat.leb lo x && PrimFloat.leb x hi = true -> in_range lo hi x.
Proof. intros Hb. apply andb_true_iff in Hb. exact Hb. Qed.

Section ValidConfig.
Context `{Pydantic}.

Lemma v_float_inr (lo hi : float) (l : string) (v : pyval) (x : float) :
  v_float lo hi l v = inr x -> in_range lo hi x.
Proof.
  unfold v_float, in_range. destruct (lax_float v) as [m|y]; [discriminate|].
  destruct (PrimFloat.leb lo y) eqn:Hlo; [|discriminate].
  destruct (PrimFloat.leb y hi) eqn:Hhi; [|discriminate].
  cbn. intros [= <-]. auto.
Qed.

Lemma v_int_inr (lo : Z) (hi : option Z) (l : string) (v : pyval) (n : Z) :
  v_int lo hi l v = inr n ->
  lo <= n /\ match hi with Some h => n <= h | None => True end.
Proof.
  unfold v_int. destruct (lax_int v) as [m|k]; [discriminate|].
  destruct (k <? lo) eqn:Hlo; [discriminate|]. apply Z.ltb_ge in Hlo.
  destruct hi as [h|].
  - destruct (h <? k) eqn:Hhi; [discriminate|]. apply Z.ltb_ge in Hhi.
    intros [= <-]. auto.
  - intros [= <-]. auto.
Qed.

Lemma v_log_level_inr (l : string) (v : pyval) (s : string) :
  v_log_level l v = inr s ->
  s ∈ ["DEBUG"; "INFO"; "WARNING"; "ERROR"; "CRITICAL"].
Proof.
  unfold v_log_level. destruct (v_str l v) as [e|s0]; [discriminate|].
  case_bool_decide as Hin; [|discriminate]. intros [= <-]. exact Hin.
Qed.

Lemma v_path_inr (l : string) (v : pyval) (s : string) :
  v_path l v = inr s -> configured s.
Proof.
  unfold v_path. destruct (v_str l v) as [e|s0]; [discriminate|].
  destruct (validate_paths s0) as [e|s1] eqn:Hv.
  - destruct e; discriminate.
  - intros [= <-]. apply validate_paths_inr in Hv as [-> Hc]. exact Hc.
Qed.

Lemma field_float (lo hi : float) (l k : string) (d x : float)
    (items : list (string * pyval)) :
  PrimFloat.leb lo d && PrimFloat.leb d hi = true ->
  field l k (Some d) (v_float lo hi) items = inr x -> in_range lo hi x.
Proof.
  intros Hd. apply (field_sat (in_range lo hi)).
  - intros a0 [= <-]. apply in_range_default, Hd.
  - intros l' v a'. apply v_float_inr.
Qed.

Lemma field_int (lo : Z) (hi : option Z) (l k : string) (d n : Z)
    (items : list (string * pyval)) :
  lo <= d -> match hi with Some h => d <= h | None => True end ->
  field l k (Some d) (v_int lo hi) items = inr n ->
  lo <= n /\ match hi with Some h => n <= h | None => True end.
Proof.
  intros Hlo Hhi.
  apply (field_sat (fun n => lo <= n /\ match hi with Some h => n <= h | None => True end)).
  - intros a0 [= <-]. auto.
  - intros l' v a'. apply v_int_inr.
Qed.

Lemma field_model {A} (P : A -> Prop) (cls l k : string) (d a : A)
    (validate : string -> list (string * pyval) -> V A)
    (items : list (string * pyval)) :
  P d -> (forall l' d' a', validate l' d' = inr a' -> P a') ->
  field l k (Some d) (v_model cls validate) items = inr a -> P a.
Proof.
  intros Hd Hv. apply (field_sat P).
  - intros a0 [= <-]. exact Hd.
  - intros l' v a' Hm. apply v_model_inr in Hm as (d' & _ & Hm). eauto.
Qed.

Lemma valid_AppConfig (l : string) (d : list (string * pyval)) (a : AppConfig.t) :
  v_AppConfig l d = inr a ->
  AppConfig.log_level a ∈ ["DEBUG"; "INFO"; "WARNING"; "ERROR"; "CRITICAL"].
Proof.
  unfold v_AppConfig. intros Hv. vap_inv Hv. injection Hv as <-. cbn.
  match goal with
  | Hf : field _ "log_level" _ _ _ = inr _ |- _ => revert Hf
  end.
  apply (field_sat (fun s => s ∈ ["DEBUG"; "INFO"; "WARNING"; "ERROR"; "CRITICAL"])).
  - intros s0 [= <-]. repeat constructor.
  - apply v_log_level_inr.
Qed.

Lemma valid_PathsConfig (l : string) (d : list (string * pyval)) (a : PathsConfig.t) :
  v_PathsConfig l d = inr a ->
  configured (PathsConfig.input_folder a) /\
  configured (PathsConfig.output_folder a).
Proof.
  unfold v_PathsConfig. intros Hv. vap_inv Hv. injection Hv as <-. cbn.
  split.
  - match goal with
    | Hf : field _ "input_folder" _ _ _ = inr _ |- _ => revert Hf
    end.
    apply (field_sat configured); [discriminate | apply v_path_inr].
  - match goal with
    | Hf : field _ "output_folder" _ _ _ = inr _ |- _ => revert Hf
    end.
    apply (field_sat configured); [discriminate | apply v_path_inr].
Qed.

Lemma valid_VideoFingerprintConfig (l : string) (d : list (string * pyval))
    (a : VideoFingerprintConfig.t) :
  v_VideoFingerprintConfig l d = inr a ->
  1 <= VideoFingerprintConfig.thumbnail_count a <= 10.
Proof.
  unfold v_VideoFingerprintConfig. intros Hv. vap_inv Hv. injection Hv as <-. cbn.
  match goal with
  | Hf : field _ "thumbnail_count" _ _ _ = inr _ |- _ =>
    apply field_int in Hf; [exact Hf | lia | lia]
  end.
Qed.

Lemma valid_FingerprintingConfig (l : string) (d : list (string * pyval))
    (a : FingerprintingConfig.t) :
  v_FingerprintingConfig l d = inr a ->
  1 <= VideoFingerprintConfig.thumbnail_count (FingerprintingConfig.video a) <= 10.
Proof.
  unfold v_FingerprintingConfig. intros Hv. vap_inv Hv. injection Hv as <-. cbn.
  match goal with
  | Hf : field _ "video" _ _ _ = inr _ |- _ => revert Hf
  end.
  apply (field_model (fun v => 1 <= VideoFingerprintConfig.thumbnail_count v <= 10)).
  - cbn. lia.
  - apply valid_VideoFingerprintConfig.
Qed.

Lemma valid_MusicBrainzConfig (l : string) (d : list (string * pyval))
    (a : MusicBrainzConfig.t) :
  v_MusicBrainzConfig l d = inr a ->
  in_range 0.5 5 (MusicBrainzConfig.rate_limit a).
Proof.
  unfold v_MusicBrainzConfig. intros Hv. vap_inv Hv. injection Hv as <-. cbn.
  match goal with
  | Hf : field _ "rate_limit" _ _ _ = inr _ |- _ =>
    apply field_float in Hf; [exact Hf | reflexivity]
  end.
Qed.

Lemma valid_MetadataConfig (l : string) (d : list (string * pyval))
    (a : MetadataConfig.t) :
  v_MetadataConfig l d = inr a ->
  in_range 0.5 5 (MusicBrainzConfig.rate_limit (MetadataConfig.musicbrainz a)).
Proof.
  unfold v_MetadataConfig. intros Hv. vap_inv Hv. injection Hv as <-. cbn.
  match goal with
  | Hf : field _ "musicbrainz" _ _ _ = inr _ |- _ => revert Hf
  end.
  apply (field_model (fun m => in_range 0.5 5 (MusicBrainzConfig.rate_limit m))).
  - split; reflexivity.
  - apply valid_MusicBrainzConfig.
Qed.

Lemma valid_MLConfig (l : string) (d : list (string * pyval)) (a : MLConfig.t) :
  v_MLConfig l d = inr a ->
  in_range 0 1 (MLConfig.confidence_threshold a) /\
  10 <= MLConfig.retrain_interval a /\
  in_range 1 2 (MLConfig.italian_music_boost a).
Proof.
  unfold v_MLConfig. intros Hv. vap_inv Hv. injection Hv as <-. cbn.
  repeat match goal with
         | Hf : field _ _ _ (v_float _ _) _ = inr _ |- _ =>
           apply field_float in Hf; [|reflexivity]
         | Hf : field _ _ _ (v_int _ _) _ = inr _ |- _ =>
           apply field_int in Hf; [|lia|exact I]
         end.
  intuition.
Qed.

Lemma valid_ReviewConfig (l : string) (d : list (string * pyval))
    (a : ReviewConfig.t) :
  v_ReviewConfig l d = inr a ->
  in_range 0 1 (ReviewConfig.confidence_threshold a) /\
  in_range 0 1 (ReviewConfig.auto_approve_above a).
Proof.
  unfold v_ReviewConfig. intros Hv. vap_inv Hv. injection Hv as <-. cbn.
  repeat match goal with
         | Hf : field _ _ _ (v_float _ _) _ = inr _ |- _ =>
           apply field_float in Hf; [|reflexivity]
         end.
  auto.
Qed.

Lemma valid_BackupConfig (l : string) (d : list (string * pyval))
    (a : BackupConfig.t) :
  v_BackupConfig l d = inr a ->
  1 <= BackupConfig.commit_interval a /\ 1 <= BackupConfig.push_interval a.
Proof.
  unfold v_BackupConfig. intros Hv. vap_inv Hv. injection Hv as <-. cbn.
  repeat match goal with
         | Hf : field _ _ _ (v_int _ _) _ = inr _ |- _ =>
           apply field_int in Hf; [|lia|exact I]
         end.
  intuition.
Qed.

Lemma v_Config_valid (d : list (string * pyval)) (c : Config.t) :
  v_Config d = inr c -> Config_valid c.
Proof.
  unfold v_Config, Config_valid. intros Hv. vap_inv Hv. injection Hv as <-. cbn.
  repeat match goal with
         | Hf : field _ "app" _ _ _ = inr _ |- _ =>
           apply (field_model (fun a => AppConfig.log_level a
             ∈ ["DEBUG"; "INFO"; "WARNING"; "ERROR"; "CRITICAL"])) in Hf;
             [|repeat constructor|apply valid_AppConfig]
         | Hf : field _ "paths" _ _ _ = inr _ |- _ =>
           apply (field_sat (fun p => configured (PathsConfig.input_folder p) /\
                                      configured (PathsConfig.output_folder p))) in Hf;
             [|discriminate
              |let Hm := fresh in
               intros ? ? ? Hm; apply v_model_inr in Hm as (? & _ & Hm);
               eapply valid_PathsConfig, Hm]
         | Hf : field _ "fingerprinting" _ _ _ = inr _ |- _ =>
           apply (field_model (fun f => 1 <= VideoFingerprintConfig.thumbnail_count
                                              (FingerprintingConfig.video f) <= 10)) in Hf;
             [|cbn; lia|apply valid_FingerprintingConfig]
         | Hf : field _ "metadata" _ _ _ = inr _ |- _ =>
           apply (field_model (fun m => in_range 0.5 5
                    (MusicBrainzConfig.rate_limit (MetadataConfig.musicbrainz m)))) in Hf;
             [|split; reflexivity|apply valid_MetadataConfig]
         | Hf : field _ "ml" _ _ _ = inr _ |- _ =>
           apply (field_model (fun a => in_range 0 1 (MLConfig.confidence_threshold a) /\
                                        10 <= MLConfig.retrain_interval a /\
                                        in_range 1 2 (MLConfig.italian_music_boost a))) in Hf;
             [|cbn; repeat split; (reflexivity || lia)|apply valid_MLConfig]
         | Hf : field _ "review" _ _ _ = inr _ |- _ =>
           apply (field_model (fun a => in_range 0 1 (ReviewConfig.confidence_threshold a) /\
                                        in_range 0 1 (ReviewConfig.auto_approve_above a))) in Hf;
             [|cbn; repeat split; reflexivity|apply valid_ReviewConfig]
         | Hf : field _ "backup" _ _ _ = inr _ |- _ =>
           apply (field_model (fun a => 1 <= BackupConfig.commit_interval a /\
                                        1 <= BackupConfig.push_interval a)) in Hf;
             [|cbn; lia|apply valid_BackupConfig]
         end.
  intuition.
Qed.

(** X9.  A configuration that [Config(...)] returns satisfies the constraint
    of every constrained field: the log level is one of the five of the
    pattern, the input and output folders are neither empty nor a placeholder,
    [thumbnail_count] is between 1 and 10, [rate_limit] between 0.5 and 5,
    the confidence thresholds and [auto_approve_above] between 0 and 1,
    [retrain_interval] at least 10, [italian_music_boost] between 1 and 2, and
    the two backup intervals at least 1; whatever pydantic's coercions of the
    scalars are, and whether a value was given or left to its default. *)
Theorem validated_config_meets_field_constraints
    (config_dict : pyval) (c : Config.t) :
  Config_init config_dict = inr c -> Config_valid c.
Proof.
  unfold Config_init. destruct config_dict; try discriminate.
  destruct (v_Config _) as [errs|c0] eqn:Hv; [discriminate|].
  intros [= <-]. eapply v_Config_valid, Hv.
Qed.

End ValidConfig.

Lemma validated_config_meets_field_constraints_witness :
  exists c, @Config_init exact_inputs full_config = inr c /\ Config_valid c.
Proof.
  eexists. split; [reflexivity|].
  eapply (@validated_config_meets_field_constraints exact_inputs full_config).
  reflexivity.
Defined.

(** ** What validation reports, and what it fills in *)

Lemma errors_of_vap {A B} (f : V (A -> B)) (x : V A) :
  errors_of (f <*> x) = (errors_of f ++ errors_of x)%list.
Proof.
  destruct f as [e1|g], x as [e2|a]; cbn; try reflexivity.
  symmetry. apply app_nil_r.
Qed.

Lemma errors_of_inl {A} (x : V A) (e : error_detail) :
  e ∈ errors_of x -> exists errs, x = inl errs /\ e ∈ errs.
Proof.
  destruct x as [errs|a]; cbn.
  - eauto.
  - intros Hin. inversion Hin.
Qed.

Lemma validate_paths_unconfigured (v : string) :
  ~ configured v ->
  validate_paths v = inl (ValueError ("Path must be configured: " +:+ v)).
Proof.
  intros Hn. unfold validate_paths.
  destruct (String.eqb v "") eqn:E1; [reflexivity|].
  destruct (String.eqb v "/path/to/input") eqn:E2; [reflexivity|].
  destruct (String.eqb v "/path/to/output") eqn:E3; [reflexivity|].
  exfalso. apply Hn. apply String.eqb_neq in E1, E2, E3. repeat split; assumption.
Qed.

Section Reports.
Context `{Pydantic}.

Lemma errors_of_PathsConfig (l : string) (pd : list (string * pyval))
    (k : string) (e : error_detail) :
  k ∈ ["input_folder"; "output_folder"] ->
  e ∈ errors_of (field l k None v_path pd) ->
  e ∈ errors_of (v_PathsConfig l pd).
Proof.
  intros Hk He. unfold v_PathsConfig. rewrite !errors_of_vap. cbn [errors_of].
  rewrite !elem_of_app.
  apply elem_of_cons in Hk as [->|Hk]; [tauto|].
  apply list_elem_of_singleton in Hk as ->. tauto.
Qed.

Lemma errors_of_paths (d : list (string * pyval)) (e : error_detail) :
  e ∈ errors_of (field "" "paths" None (v_model "PathsConfig" v_PathsConfig) d) ->
  exists errs, Config_init (PDict d) = inl (ValidationError "Config" errs) /\
               e ∈ errs.
Proof.
  intros He.
  assert (Hin : e ∈ errors_of (v_Config d)).
  { unfold v_Config. rewrite !errors_of_vap. cbn [errors_of].
    rewrite !elem_of_app. tauto. }
  apply errors_of_inl in Hin as (errs & Hv & Hin).
  exists errs. unfold Config_init. rewrite Hv. auto.
Qed.

(** X10.  [input_folder] and [output_folder] have no default and [paths] has
    none either: a [config_dict] without [paths], or whose [paths] lacks one
    of the two folders, is refused with a [ValidationError] of [Config] that
    lists [Field required] at the location of what is missing, whatever the
    other sections hold. *)
Theorem missing_folder_is_reported
    (d : list (string * pyval)) (location : string) :
  (assoc "paths" d = None /\ location = "paths") \/
  (exists pd k, assoc "paths" d = Some (PDict pd) /\
                k ∈ ["input_folder"; "output_folder"] /\
                assoc k pd = None /\ location = "paths." +:+ k) ->
  exists errs,
    Config_init (PDict d) = inl (ValidationError "Config" errs) /\
    ErrorDetail location "Field required" ∈ errs.
Proof.
  intros [[Hp ->]|(pd & k & Hp & Hk & Hf & ->)]; apply errors_of_paths.
  - unfold field. rewrite Hp. cbn. apply list_elem_of_singleton. reflexivity.
  - unfold field at 1. rewrite Hp. cbn [v_model].
    apply (errors_of_PathsConfig _ _ k); [exact Hk|].
    unfold field. rewrite Hf. cbn. apply list_elem_of_singleton. reflexivity.
Qed.

(** X11.  [validate_paths] refuses the empty string and the two placeholders
    of the example file: a [paths] section whose input or output folder is
    such a string is refused with a [ValidationError] of [Config] that lists,
    at the location of the folder, the message of the [ValueError] the
    validator raised, the offending value included. *)
Theorem unconfigured_folder_is_reported
    (d pd : list (string * pyval)) (k v : string) :
  assoc "paths" d = Some (PDict pd) ->
  k ∈ ["input_folder"; "output_folder"] ->
  assoc k pd = Some (PStr v) ->
  ~ configured v ->
  exists errs,
    Config_init (PDict d) = inl (ValidationError "Config" errs) /\
    ErrorDetail ("paths." +:+ k) ("Value error, Path must be configured: " +:+ v)
      ∈ errs.
Proof.
  intros Hp Hk Hf Hv. apply errors_of_paths.
  unfold field at 1. rewrite Hp. cbn [v_model].
  apply (errors_of_PathsConfig _ _ k); [exact Hk|].
  unfold field. rewrite Hf. unfold v_path. cbn [v_str].
  rewrite (validate_paths_unconfigured _ Hv). cbn.
  apply list_elem_of_singleton. reflexivity.
Qed.

Lemma field_omitted {A} (l k : string) (d a : A)
    (validate : string -> list (string * pyval) -> V A) (cls : string)
    (items : list (string * pyval)) :
  assoc k items = None ->
  field l k (Some d) (v_model cls validate) items = inr a -> a = d.
Proof. unfold field. intros ->. intros [= <-]. reflexivity. Qed.

(** X12.  Every section but [paths] is optional: in a configuration that
    [Config(...)] returns, a section the [config_dict] does not have is the
    default instance of its model. *)
Theorem omitted_sections_take_their_defaults
    (d : list (string * pyval)) (c : Config.t) :
  Config_init (PDict d) = inr c ->
  (assoc "app" d = None -> Config.app c = AppConfig.default) /\
  (assoc "fingerprinting" d = None ->
   Config.fingerprinting c = FingerprintingConfig.default) /\
  (assoc "metadata" d = None -> Config.metadata c = MetadataConfig.default) /\
  (assoc "ml" d = None -> Config.ml c = MLConfig.default) /\
  (assoc "review" d = None -> Config.review c = ReviewConfig.default) /\
  (assoc "usb" d = None -> Config.usb c = USBConfig.default) /\
  (assoc "backup" d = None -> Config.backup c = BackupConfig.default).
Proof.
  unfold Config_init. destruct (v_Config d) as [errs|c0] eqn:Hv; [discriminate|].
  intros [= <-]. unfold v_Config in Hv. vap_inv Hv. injection Hv as <-. cbn.
  repeat split; intros Hk; eapply field_omitted; eassumption.
Qed.

End Reports.

Lemma missing_folder_is_reported_witness :
  exists errs,
    @Config_init exact_inputs
      (PDict [("paths", PDict [("input_folder", PStr "/media/in")])])
    = inl (ValidationError "Config" errs) /\
    ErrorDetail "paths.output_folder" "Field required" ∈ errs.
Proof.
  apply (@missing_folder_is_reported exact_inputs).
  right. exists [("input_folder", PStr "/media/in")], "output_folder".
  repeat split; try reflexivity.
  do 2 constructor.
Defined.

Lemma unconfigured_folder_is_reported_witness :
  exists errs,
    @Config_init exact_inputs placeholder_config
    = inl (ValidationError "Config" errs) /\
    ErrorDetail "paths.input_folder"
      "Value error, Path must be configured: /path/to/input" ∈ errs.
Proof.
  apply (@unconfigured_folder_is_reported exact_inputs
           [("paths", PDict [("input_folder", PStr "/path/to/input");
                             ("output_folder", PStr "/media/out")])]
           [("input_folder", PStr "/path/to/input");
            ("output_folder", PStr "/media/out")]
           "input_folder" "/path/to/input").
  - reflexivity.
  - constructor.
  - reflexivity.
  - intros (_ & Hne & _). apply Hne. reflexivity.
Defined.

Lemma omitted_sections_take_their_defaults_witness :
  exists c,
    @Config_init exact_inputs
      (PDict [("paths", PDict [("input_folder", PStr "/media/in");
                               ("output_folder", PStr "/media/out")])])
    = inr c /\
    Config.ml c = MLConfig.default /\ Config.backup c = BackupConfig.default.
Proof.
  eexists. split; [reflexivity|].
  pose proof (@omitted_sections_take_their_defaults exact_inputs
                [("paths", PDict [("input_folder", PStr "/media/in");
                                  ("output_folder", PStr "/media/out")])]
                _ eq_refl) as (_ & _ & _ & Hml & _ & _ & Hbackup).
  split; [apply Hml | apply Hbackup]; reflexivity.
Defined.

(** ** Merging the secret: what it leaves alone *)








(** ** Loading: failures and what a load leaves *)

Lemma mkdir_inl (p : string) (w w' : world) (e : exn) :
  mkdir p w = (inl e, w') ->
  p ∈ dom (files w) /\ is_FileExistsError e = true /\ w' = w.
Proof.
  unfold mkdir. case_bool_decide as Hp; [|discriminate].
  intros [= <- <-]. auto.
Qed.


Lemma create_directories_dirs (me : ConfigManager.t) (w : world) :
  dirs w ⊆ dirs (snd (snd (_create_directories (me, w)))).
Proof.
  unfold _create_directories, self, bind, gets, in_world, ret. cbn [fst snd].
  destruct (ConfigManager.config me) as [c|]; [|reflexivity].
  repeat match goal with
         | |- context [mkdir ?p ?w0] =>
           let E := fresh "E" in
           destruct (mkdir p w0) as [[?|[]] ?] eqn:E;
             [apply mkdir_inl in E as (_ & _ & ->)
             |apply mkdir_inr in E as [_ ->]];
             cbn [fst snd dirs set_dirs]
         end;
    set_solver.
Qed.

Section Loading.
Context `{Pydantic}.

(** X14.  [load_config] names a new manager in the global before it loads:
    when the file is missing, is not YAML or does not validate, the call
    raises, changes nothing else in the world, and the configuration a
    previous call had loaded is gone; [get_config] now raises the
    [RuntimeError] of the manager's [get]. *)
Theorem failed_load_config_forgets_the_previous_one
    (p : string) (w : world) (e : exn) :
  load_value (ConfigManager_init p) w = inl e ->
  load_config p w
  = (inl e, set__config_manager (Some (ConfigManager_init p)) w) /\
  fst (get_config (snd (load_config p w)))
  = inl (RuntimeError "Configuration not loaded. Call load() first.").
Proof.
  intros Hv.
  assert (Hrun : load_config p w
                 = (inl e, set__config_manager (Some (ConfigManager_init p)) w)).
  { unfold load_config. rewrite ConfigManager_load_unfold, Hv. reflexivity. }
  split; [exact Hrun|]. rewrite Hrun. reflexivity.
Qed.



(** X17.  [api_key] is declared [str] and the merge copies the secret as it
    is: a secrets file whose [tmdb_api_key] is a truthy value that is not a
    string (a number, [true], a non-empty list or mapping) makes every load
    fail, whatever the main configuration file holds. *)
Theorem secret_that_is_not_a_string_fails_the_load
    (p : string) (w : world) (secrets key : pyval) :
  files w !! "config/secrets.yaml" = Some (Yaml secrets) ->
  secret_of secrets = Some key -> truthy key = true ->
  (forall s, key <> PStr s) ->
  exists e, fst (load_config p w) = inl e.
Proof.
  intros Hfile Hkey Htruthy Hstr.
  destruct (load_value (ConfigManager_init p) w) as [e|c] eqn:Hv.
  - exists e. apply load_config_inl, Hv.
  - exfalso. apply load_value_inr in Hv as (d & d' & _ & Hstep & Hinit).
    cbn [ConfigManager_init ConfigManager.secrets_path] in Hstep.
    rewrite (secrets_step_read _ d d' w secrets Hfile) in Hstep.
    rewrite (merge_secrets_present secrets key d Hkey Htruthy) in Hstep.
    apply set_tmdb_api_key_entry in Hstep.
    apply (Hstr (tmdb_api_key c)). eapply validated_api_key; eassumption.
Qed.

Lemma merge_secrets_None (secrets : pyval) :
  (exists e, merge_secrets secrets PNone = inl e /\ is_TypeError e = true) \/
  merge_secrets secrets PNone = inr PNone.
Proof.
  unfold merge_secrets.
  destruct (py_contains "tmdb_api_key" (if truthy secrets then secrets else PDict []))
    as [e|[]] eqn:Hin.
  - left. exists e. split; [reflexivity|].
    destruct (truthy secrets); [|discriminate].
    destruct secrets; try discriminate; cbn in Hin; injection Hin as <-;
      reflexivity.
  - destruct (py_getitem _ "tmdb_api_key") as [e|key] eqn:Hget.
    + left. exists e. split; [reflexivity|].
      destruct (truthy secrets).
      * destruct secrets; try discriminate; cbn in Hget.
        -- injection Hget as <-. reflexivity.
        -- injection Hget as <-. reflexivity.
        -- cbn in Hin. injection Hin as Hin.
           apply bool_decide_eq_true_1 in Hin as [v Hv].
           rewrite Hv in Hget. discriminate.
      * discriminate.
    + destruct (truthy key); [|right; reflexivity].
      left. eexists. split; reflexivity.
  - right. reflexivity.
Qed.

(** X18.  An empty configuration file is not reported as a configuration
    error: [yaml.safe_load] gives [None], which is neither searched for
    [metadata] nor unpacked by [Config(...)] without a [TypeError], so that a
    readable secrets file or none leaves [main] printing one line that starts
    with [Fatal error: ] and returning 1. *)
Theorem empty_configuration_file_is_a_fatal_error (a : args) (w : world) :
  files w !! config a = Some (Yaml PNone) ->
  (path_exists "config/secrets.yaml" w = false \/
   exists secrets, files w !! "config/secrets.yaml" = Some (Yaml secrets)) ->
  exists (e : exn) (w' : world),
    is_TypeError e = true /\
    main a w = (inr 1, w') /\
    stderr w' = (stderr w ++ ["Fatal error: " +:+ str e])%list.
Proof.
  intros Hfile Hsecrets.
  assert (Hv : exists e, is_TypeError e = true /\
                         load_value (ConfigManager_init (config a)) w = inl e).
  { unfold load_value. cbn [ConfigManager_init ConfigManager.config_path
                             ConfigManager.secrets_path].
    assert (Hex : path_exists (config a) w = true).
    { unfold path_exists. apply orb_true_iff. left.
      apply bool_decide_eq_true_2, elem_of_dom. eauto. }
    rewrite Hex. cbn [negb]. unfold yaml_safe_load at 1. rewrite Hfile.
    cbn [fst].
    destruct Hsecrets as [Hno|[secrets Hs]].
    - unfold secrets_step. rewrite Hno. eexists. split; [|reflexivity].
      reflexivity.
    - rewrite (secrets_step_read _ PNone PNone w secrets Hs).
      destruct (merge_secrets_None secrets) as [(e & -> & He)| ->].
      + eauto.
      + eexists. split; [|reflexivity]. reflexivity. }
  destruct Hv as (e & He & Hv).
  destruct (main_outcome a w) as (code & w' & Hmain & Hout).
  rewrite (main_try_load_failure a w e Hv) in Hout. destruct Hout as [-> Herr].
  exists e, w'. split; [exact He|]. split; [exact Hmain|].
  rewrite Herr. unfold report. destruct e; try discriminate. reflexivity.
Qed.

End Loading.

Lemma failed_load_config_forgets_the_previous_one_witness :
  fst (@get_config
         (snd (@load_config exact_inputs "config/config.yaml" sample_world)))
  = fst (@load_config exact_inputs "config/config.yaml" sample_world) /\
  fst (get_config
         (snd (@load_config exact_inputs "missing.yaml"
                 (snd (@load_config exact_inputs "config/config.yaml"
                         sample_world)))))
  = inl (RuntimeError "Configuration not loaded. Call load() first.").
Proof.
  split; [vm_compute; reflexivity|].
  refine (proj2 (@failed_load_config_forgets_the_previous_one exact_inputs
                   "missing.yaml" _ _ _)).
  vm_compute. reflexivity.
Defined.



Lemma secret_that_is_not_a_string_fails_the_load_witness :
  exists e,
    fst (@load_config exact_inputs "config/config.yaml" world_with_numeric_secret)
    = inl e.
Proof.
  apply (@secret_that_is_not_a_string_fails_the_load exact_inputs
           "config/config.yaml" world_with_numeric_secret
           (PDict [("tmdb_api_key", PInt 12345)]) (PInt 12345)).
  - reflexivity.
  - reflexivity.
  - reflexivity.
  - discriminate.
Defined.

Lemma empty_configuration_file_is_a_fatal_error_witness :
  exists (e : exn) (w' : world),
    is_TypeError e = true /\
    @main exact_inputs (Args "config/config.yaml" false) world_with_empty_config
    = (inr 1, w') /\
    stderr w' = (stderr world_with_empty_config
                 ++ ["Fatal error: " +:+ str e])%list.
Proof.
  apply (@empty_configuration_file_is_a_fatal_error exact_inputs
           (Args "config/config.yaml" false) world_with_empty_config).
  - reflexivity.
  - left. vm_compute. reflexivity.
Defined.

(** ** The logger: what [init_logger] installs, and where records go *)

(** [init_logger] in one piece. *)
Lemma init_logger_unfold (d l : string) (w : world) :
  init_logger d l w =
  if bool_decide (d ∈ dom (files w))
  then (inl (FileExistsError ("[Errno 17] File exists: '" +:+ d +:+ "'")), w)
  else if bool_decide (l ∈ loguru_levels)
  then (inr (installed_handlers d l), after_init_logger d l w)
  else (inl (ValueError ("Level '" +:+ l +:+ "' does not exist")),
        set_handlers [] (set_dirs ({[d]} ∪ dirs w) w)).
Proof.
  unfold init_logger, LoggerManager_init, _setup_console_handler,
    _setup_file_handlers, LoggerManager_get_logger, logger_add, mkdir, bind.
  case_bool_decide as Hd; [reflexivity|].
  unfold modify at 1. cbn [h_level LoggerManager.log_level LoggerManager.log_dir].
  case_bool_decide as Hl; [|reflexivity].
  rewrite !bool_decide_eq_true_2 by (unfold loguru_levels; repeat constructor).
  reflexivity.
Qed.








(** ** The application: what a run needs and what it leaves *)

Lemma path_exists_false (p : string) (w : world) :
  path_exists p w = false -> p ∉ dom (files w).
Proof.
  unfold path_exists. intros Hp. apply orb_false_iff in Hp as [Hp _].
  apply bool_decide_eq_false_1 in Hp. exact Hp.
Qed.

Lemma path_exists_dir (p : string) (w : world) :
  p ∈ dirs w -> path_exists p w = true.
Proof.
  intros Hp. unfold path_exists. apply orb_true_iff. right.
  apply bool_decide_eq_true_2, Hp.
Qed.

Lemma path_exists_mono (p : string) (w w' : world) :
  files w' = files w -> dirs w ⊆ dirs w' ->
  path_exists p w = true -> path_exists p w' = true.
Proof.
  unfold path_exists. intros -> Hd Hp. apply orb_true_iff in Hp as [Hp|Hp].
  - rewrite Hp. reflexivity.
  - apply bool_decide_eq_true_1 in Hp. apply orb_true_iff. right.
    apply bool_decide_eq_true_2. set_solver.
Qed.

Section Application.
Context `{Pydantic}.

Lemma validate_paths_run (c : Config.t) (w : world) :
  exists w',
    _validate_paths c w = (inr tt, w') /\
    path_exists (PathsConfig.input_folder (Config.paths c)) w' = true /\
    path_exists (PathsConfig.output_folder (Config.paths c)) w' = true /\
    files w' = files w /\ sqlite w' = sqlite w /\ handlers w' = handlers w /\
    dirs w ⊆ dirs w' /\
    dirs w' ⊆ {[PathsConfig.input_folder (Config.paths c);
                PathsConfig.output_folder (Config.paths c)]} ∪ dirs w /\
    (path_exists (PathsConfig.input_folder (Config.paths c)) w = true ->
     path_exists (PathsConfig.output_folder (Config.paths c)) w = true ->
     dirs w' = dirs w).
Proof.
  unfold _validate_paths.
  set (input := PathsConfig.input_folder (Config.paths c)).
  set (output := PathsConfig.output_folder (Config.paths c)).
  unfold bind, gets, log, modify, ret. cbn [fst snd].
  destruct (path_exists input w) eqn:Hi; cbn [negb].
  - destruct (path_exists output w) eqn:Ho; cbn [negb].
    + eexists. split; [reflexivity|].
      repeat split; try assumption; try reflexivity; cbn; set_solver.
    + rewrite mkdir_ok by (apply path_exists_false, Ho).
      eexists. split; [reflexivity|].
      repeat split; try reflexivity.
      * apply (path_exists_mono input w); [reflexivity|cbn; set_solver|exact Hi].
      * apply path_exists_dir. cbn. set_solver.
      * cbn. set_solver.
      * cbn. set_solver.
      * intros _ Hfalse. discriminate.
  - rewrite mkdir_ok by (apply path_exists_false, Hi). cbn [fst snd].
    match goal with
    | |- context [path_exists output ?w0] =>
      destruct (path_exists output w0) eqn:Ho; cbn [negb]
    end.
    + eexists. split; [reflexivity|].
      repeat split; try reflexivity.
      * apply path_exists_dir. cbn. set_solver.
      * revert Ho. apply path_exists_mono; [reflexivity|cbn; set_solver].
      * cbn. set_solver.
      * cbn. set_solver.
      * intros Hfalse. discriminate.
    + rewrite mkdir_ok by (apply path_exists_false in Ho; exact Ho).
      eexists. split; [reflexivity|].
      repeat split; try reflexivity.
      * apply path_exists_dir. cbn. set_solver.
      * apply path_exists_dir. cbn. set_solver.
      * cbn. set_solver.
      * cbn. set_solver.
      * intros Hfalse. discriminate.
Qed.


End Application.

Lemma connect_ext (p : string) (w w' : world) :
  files w = files w' -> dirs w = dirs w' -> sqlite w = sqlite w' ->
  fst (connect p w) = fst (connect p w').
Proof.
  intros Hf Hd Hs. unfold connect. rewrite Hf, Hd, Hs.
  repeat (case_match; try reflexivity).
Qed.

Lemma connect_at (p : string) (w w' : world) :
  files w = files w' -> dirs w = dirs w' -> sqlite w = sqlite w' ->
  connect p w = (fst (connect p w'), w).
Proof.
  intros Hf Hd Hs. rewrite <- (connect_ext p w w' Hf Hd Hs).
  rewrite <- (connect_state p w) at 3. apply surjective_pairing.
Qed.








(** [init_database] in one piece. *)
Lemma init_database_run (p : string) (w : world) :
  init_database p w =
  match fst (connect p w) with
  | inl e => (inl e, w)
  | inr db =>
    (inr (DatabaseManager.Make p),
     if in_memory p then w
     else set_sqlite (<[p := create_all db]> (sqlite w)) w)
  end.
Proof.
  unfold init_database, create_tables, bind. cbn [DatabaseManager.db_path].
  rewrite (surjective_pairing (connect p w)), connect_state.
  destruct (fst (connect p w)) as [e|db]; [reflexivity|].
  unfold commit. destruct (in_memory p); reflexivity.
Qed.

Section RunFacts.
Context `{Pydantic}.









End RunFacts.

Section RunTheorems.
Context `{Pydantic}.




Lemma main_init_db_preserves {X} (f : world -> X) (p : string) :
  (forall x w, f (set_dirs x w) = f w) ->
  (forall x w, f (set_sqlite x w) = f w) ->
  (forall x w, f (set_stdout x w) = f w) ->
  (forall x w, f (set_stderr x w) = f w) ->
  (forall x w, f (set__config_manager x w) = f w) ->
  preserves f (main (Args p true)).
Proof.
  intros Hdirs Hsqlite Hstdout Hstderr Hconfig.
  unfold main, main_try. cbn [init_db config].
  unfold init_database, create_tables, print_stderr, print.
  repeat first
    [ apply connect_preserves
    | apply commit_preserves; assumption
    | apply load_config_preserves; assumption
    | apply preserves_modify; intros ?; (apply Hstdout || apply Hstderr)
    | progress preserve ].
Qed.

(** X25.  [main --init-db] does not touch the logger: it adds and removes
    no handler, emits no record and leaves the global of the logger manager
    as it was, whether it returns 0 or 1. *)
Theorem init_db_mode_leaves_the_logger_alone (p : string) (w : world) :
  handlers (snd (main (Args p true) w)) = handlers w /\
  emitted (snd (main (Args p true) w)) = emitted w /\
  _logger_manager (snd (main (Args p true) w)) = _logger_manager w.
Proof.
  repeat split; apply main_init_db_preserves; intros; reflexivity.
Qed.

End RunTheorems.



(** ** What a run never takes away *)

Lemma tables_kept_refl (db : database_file) : tables_kept db db.
Proof. unfold tables_kept. repeat split. Qed.

Lemma tables_kept_create_all (db : database_file) : tables_kept db (create_all db).
Proof.
  destruct db as [t1 t2 t3 t4 t5 t6 t7 t8]. unfold tables_kept. cbn.
  repeat split; intros [rows ->]; reflexivity.
Qed.

Lemma tables_kept_trans (db1 db2 db3 : database_file) :
  tables_kept db1 db2 -> tables_kept db2 db3 -> tables_kept db1 db3.
Proof.
  unfold tables_kept.
  intros (A1 & A2 & A3 & A4 & A5 & A6 & A7 & A8)
         (B1 & B2 & B3 & B4 & B5 & B6 & B7 & B8).
  repeat split; intros Hs;
    match goal with
    | Ha : is_Some (?t db1) -> ?t db2 = ?t db1,
      Hb : is_Some (?t db2) -> ?t db3 = ?t db2 |- ?t db3 = ?t db1 =>
      rewrite <- (Ha Hs); apply Hb; rewrite (Ha Hs); exact Hs
    end.
Qed.

Lemma nothing_lost_refl (w : world) : nothing_lost w w.
Proof.
  split; [reflexivity|]. intros p db Hp. exists db.
  split; [exact Hp | apply tables_kept_refl].
Qed.

Lemma nothing_lost_trans (w1 w2 w3 : world) :
  nothing_lost w1 w2 -> nothing_lost w2 w3 -> nothing_lost w1 w3.
Proof.
  intros [Hd1 Hs1] [Hd2 Hs2]. split; [set_solver|].
  intros p db Hp.
  destruct (Hs1 p db Hp) as (db2 & Hp2 & Hk1).
  destruct (Hs2 p db2 Hp2) as (db3 & Hp3 & Hk2).
  exists db3. split; [exact Hp3 | eapply tables_kept_trans; eassumption].
Qed.

Lemma nothing_lost_same (w w' : world) :
  dirs w ⊆ dirs w' -> sqlite w' = sqlite w -> nothing_lost w w'.
Proof.
  intros Hd Hs. split; [exact Hd|]. intros p db Hp. exists db.
  rewrite Hs. split; [exact Hp | apply tables_kept_refl].
Qed.

Lemma loses_nothing_preserves {A} (m : M world A) :
  preserves dirs m -> preserves sqlite m -> loses_nothing m.
Proof.
  intros Hd Hs w. apply nothing_lost_same; [rewrite Hd; reflexivity | apply Hs].
Qed.

Lemma loses_nothing_bind {A B} (m : M world A) (k : A -> M world B) :
  loses_nothing m -> (forall a, loses_nothing (k a)) -> loses_nothing (bind m k).
Proof.
  intros Hm Hk w. unfold bind. specialize (Hm w).
  destruct (m w) as [[e|a] w1]; cbn [snd] in *; [exact Hm|].
  eapply nothing_lost_trans; [exact Hm | apply Hk].
Qed.

Lemma loses_nothing_catch {A} (m : M world A) (h : exn -> M world A) :
  loses_nothing m -> (forall e, loses_nothing (h e)) -> loses_nothing (catch m h).
Proof.
  intros Hm Hh w. unfold catch. specialize (Hm w).
  destruct (m w) as [[e|a] w1]; cbn [snd] in *; [|exact Hm].
  eapply nothing_lost_trans; [exact Hm | apply Hh].
Qed.

Lemma loses_nothing_ret {A} (a : A) : loses_nothing (ret a).
Proof. intros w. apply nothing_lost_refl. Qed.

Lemma loses_nothing_log (level m : string) : loses_nothing (log level m).
Proof. intros w. apply nothing_lost_same; reflexivity. Qed.

Lemma loses_nothing_print (s : string) : loses_nothing (print s).
Proof. intros w. apply nothing_lost_same; reflexivity. Qed.

Lemma loses_nothing_print_stderr (s : string) : loses_nothing (print_stderr s).
Proof. intros w. apply nothing_lost_same; reflexivity. Qed.

(** [create_all] adds the tables that are missing to the file of the
    manager and touches no other file. *)
Lemma loses_nothing_init_database (p : string) : loses_nothing (init_database p).
Proof.
  intros w. rewrite init_database_run.
  destruct (fst (connect p w)) as [e|db] eqn:Hconnect; cbn [snd];
    [apply nothing_lost_refl|].
  destruct (in_memory p) eqn:Hmem; [apply nothing_lost_refl|].
  split; [reflexivity|]. intros q dbq Hq. cbn [sqlite set_sqlite].
  destruct (decide (q = p)) as [->|Hne].
  - exists (create_all db). rewrite lookup_insert_eq. split; [reflexivity|].
    assert (db = dbq) as ->; [|apply tables_kept_create_all].
    revert Hconnect. unfold connect. rewrite Hmem.
    repeat case_match; try discriminate.
    rewrite Hq. cbn. intros [= <-]. reflexivity.
  - exists dbq. rewrite lookup_insert_ne by congruence.
    split; [exact Hq | apply tables_kept_refl].
Qed.

Lemma loses_nothing_init_logger (d l : string) : loses_nothing (init_logger d l).
Proof.
  intros w. rewrite init_logger_unfold.
  repeat case_bool_decide; cbn [snd];
    apply nothing_lost_same; cbn; try reflexivity; set_solver.
Qed.

Section NothingLost.
Context `{Pydantic}.

Lemma loses_nothing_load_config (p : string) : loses_nothing (load_config p).
Proof.
  intros w. apply nothing_lost_same.
  - unfold load_config. rewrite ConfigManager_load_unfold.
    destruct (load_value (ConfigManager_init p) w) as [e|c]; [reflexivity|].
    pose proof (create_directories_dirs
                  (with_config c (ConfigManager_init p)) w) as Hd.
    destruct (_create_directories (with_config c (ConfigManager_init p), w))
      as [[e|u] [me w1]]; exact Hd.
  - apply (load_config_preserves sqlite); reflexivity.
Qed.

Lemma loses_nothing_validate_paths (c : Config.t) :
  loses_nothing (_validate_paths c).
Proof.
  intros w.
  destruct (validate_paths_run c w) as (w' & -> & _ & _ & _ & Hs & _ & Hd & _).
  apply nothing_lost_same; assumption.
Qed.

Lemma loses_nothing_main_try (a : args) : loses_nothing (main_try a).
Proof.
  unfold main_try, MediaOrganizer_init, MediaOrganizer_run, shutdown.
  destruct (init_db a);
    repeat first
      [ apply loses_nothing_ret | apply loses_nothing_log
      | apply loses_nothing_print | apply loses_nothing_init_database
      | apply loses_nothing_init_logger | apply loses_nothing_load_config
      | apply loses_nothing_validate_paths
      | apply loses_nothing_bind; [|intros ?] ].
Qed.

(** X26.  A run of [main] takes nothing away, whatever the arguments and
    the outcome: every directory that existed still exists, and every
    database file is still there with every table it had and the rows of
    these tables; [create_all] only adds the tables that are missing. *)
Theorem main_takes_nothing_away (a : args) (w : world) :
  dirs w ⊆ dirs (snd (main a w)) /\
  forall p db, sqlite w !! p = Some db ->
    exists db', sqlite (snd (main a w)) !! p = Some db' /\ tables_kept db db'.
Proof.
  change (nothing_lost w (snd (main a w))). revert w.
  change (loses_nothing (main a)). unfold main.
  apply loses_nothing_catch; [apply loses_nothing_main_try|].
  intros e.
  repeat first
    [ apply loses_nothing_ret | apply loses_nothing_print_stderr
    | apply loses_nothing_bind; [|intros ?]
    | match goal with
      | |- loses_nothing (if ?b then _ else _) => destruct b
      end ].
Qed.

End NothingLost.
